(** * clip-save: the script HTTP server (common/script_http_server.go)

    A shallow embedding of the request/response correlation core of
    [script_http_server.go]: the request-id registry [scriptResults], the
    one-slot result channels, the HTTP handler [handleScriptHTTPRequest], the
    result sink [SetScriptHTTPResult], the periodic sweeper
    [cleanupExpiredResults] and the server life cycle.

    Package-level variables become the fields of one [state] record that every
    function threads explicitly.  Channels live in a store indexed by
    reference, so that the registry entry and a handler's local [resultChan]
    alias the same cell.  A Go panic is the [None] of an [option].

    Goroutines are interleaved at the grain of whole calls: a call of
    [SetScriptHTTPResult], [StopScriptHTTPServer], one tick of the sweeper,
    the part of the handler before its [select] and the part from its
    [select] on are each one step of a run. *)

From Stdlib Require Import ZArith Ascii String List Lia.
From stdpp Require Import base option list gmap strings fin_maps.

Open Scope string_scope.
Open Scope Z_scope.

(** ** Machine integers *)

Definition INT64_MIN : Z := - 2 ^ 63.
Definition INT64_MAX : Z := 2 ^ 63 - 1.

Definition int64 (z : Z) : Prop := INT64_MIN <= z <= INT64_MAX.

(** Two's-complement wrap-around of an [int64] result. *)
Definition wrap64 (z : Z) : Z := (z + 2 ^ 63) mod 2 ^ 64 - 2 ^ 63.

(** ** Go strings: byte strings, [len] is [String.length] *)

Module GoStrings.

(** [s[lo:hi]] panics unless [lo <= hi <= len(s)]. *)
Definition slice (s : string) (lo hi : nat) : option string :=
  if (lo <=? hi)%nat && (hi <=? String.length s)%nat
  then Some (substring lo (hi - lo) s)
  else None.

(** [s[lo:]] is [s[lo:len(s)]]. *)
Definition slice_from (s : string) (lo : nat) : option string :=
  slice s lo (String.length s).

(** [strings.TrimPrefix]. *)
Definition TrimPrefix (s pre : string) : string :=
  if String.prefix pre s
  then substring (String.length pre) (String.length s - String.length pre) s
  else s.

(** [strings.Contains]. *)
Definition Contains (s substr : string) : bool :=
  match index 0 substr s with
  | Some _ => true
  | None => false
  end.

(** [strings.Split(s, sep)] for a separator of one byte, the only kind
    the package passes: the pieces between the occurrences of [sep], in
    order; never the empty list. *)
Fixpoint Split (s : string) (sep : ascii) : list string :=
  match s with
  | EmptyString => [EmptyString]
  | String a s' =>
      if Ascii.eqb a sep then EmptyString :: Split s' sep
      else match Split s' sep with
           | p :: ps => String a p :: ps
           | [] => [String a EmptyString]
           end
  end.

End GoStrings.

(** ** Decimal formatting and scanning ([fmt], [strconv]) *)

Module GoFmt.

Definition is_digit (a : ascii) : bool :=
  (48 <=? nat_of_ascii a)%nat && (nat_of_ascii a <=? 57)%nat.

Definition digit_char (d : Z) : ascii := ascii_of_nat (Z.to_nat (48 + d)).

Definition digit_val (a : ascii) : Z := Z.of_nat (nat_of_ascii a) - 48.

(** The digit loop of [strconv.FormatInt] in base 10: the least
    significant digit is produced first and written in front of what is
    already there.  [fuel] bounds the number of further digits. *)
Fixpoint format_digits (fuel : nat) (n : Z) (acc : string) : string :=
  let acc' := String (digit_char (n mod 10)) acc in
  match fuel with
  | O => acc'
  | S fuel' => if n / 10 =? 0 then acc' else format_digits fuel' (n / 10) acc'
  end.

Definition format_uint (n : Z) : string :=
  format_digits (Z.to_nat (Z.log2 n)) n EmptyString.

(** The verb [%d] of [fmt.Sprintf] on an integer. *)
Definition FormatInt (z : Z) : string :=
  if z <? 0 then String "-" (format_uint (- z)) else format_uint z.

(** [fmt]'s [SkipSpace] under [Sscanf]: blanks are dropped, a newline is
    an error.  The blanks are the ASCII ones; the multi-byte spaces of
    Unicode, which [fmt] drops as well, occur in no request id. *)
Definition is_blank (a : ascii) : bool :=
  let n := nat_of_ascii a in
  (n =? 32)%nat || (n =? 9)%nat || (n =? 11)%nat || (n =? 12)%nat || (n =? 13)%nat.

Fixpoint skip_space (s : string) : option string :=
  match s with
  | EmptyString => Some EmptyString
  | String a s' =>
      if (nat_of_ascii a =? 10)%nat then None
      else if is_blank a then skip_space s'
      else Some s
  end.

(** The longest run of digits at the front of [s], read in base 10 on
    top of [acc]; the rest of the input is returned with the value. *)
Fixpoint scan_digits (s : string) (acc : Z) : Z * string :=
  match s with
  | EmptyString => (acc, EmptyString)
  | String a s' =>
      if is_digit a then scan_digits s' (acc * 10 + digit_val a)
      else (acc, s)
  end.

(** An optional sign and at least one digit ([scanInt], [scanNumber]);
    the value must fit [int64] ([strconv.ParseInt]). *)
Definition scan_int (s : string) : option Z :=
  let '(neg, s1) :=
    match s with
    | String a s' =>
        if Ascii.eqb a "-" then (true, s')
        else if Ascii.eqb a "+" then (false, s')
        else (false, s)
    | EmptyString => (false, s)
    end in
  match s1 with
  | String d _ =>
      if is_digit d then
        let n := fst (scan_digits s1 0) in
        let v := if neg : bool then - n else n in
        if (INT64_MIN <=? v) && (v <=? INT64_MAX) then Some v else None
      else None
  | EmptyString => None
  end.

(** [fmt.Sscanf(s, "%d", &v)]: [Some v] when [err == nil].  Input left
    over after the number is not an error. *)
Definition Sscanf_d (s : string) : option Z :=
  s' ← skip_space s; scan_int s'.

End GoFmt.

(** ** Values that cross the HTTP boundary *)

(** A JSON value: what the [interface{}] of a script result holds, a value
    that [encoding/json] can write; [nil] is [JNull].  A number keeps its
    literal text. *)
#[local] Unset Elimination Schemes.
Inductive json : Type :=
| JNull
| JBool (b : bool)
| JNumber (literal : string)
| JString (s : string)
| JArray (items : list json)
| JObject (fields : list (string * json)).
#[local] Set Elimination Schemes.

(** [ScriptHTTPResult]. *)
Record ScriptHTTPResult := {
  ReturnValue : json;
  Error : string
}.

(** The zero value, which a receive from a closed, drained channel yields. *)
Definition zero_result : ScriptHTTPResult :=
  {| ReturnValue := JNull; Error := "" |}.

(** [UserScript] is declared in another file of the package; these are the
    fields this file reads. *)
Record UserScript := {
  ID : string;
  PluginID : string;
  Name : string
}.

(** What has been written to an [http.ResponseWriter]. *)
Inductive body : Type :=
| BodyNone
| BodyText (text : string)
| BodyJSON (v : json).

Record ResponseWriter := {
  Header : gmap string string;
  Status : nat;                  (* 0 until the header is written *)
  Body : body
}.

Definition new_writer : ResponseWriter :=
  {| Header := ∅; Status := 0; Body := BodyNone |}.

Definition header_set (k v : string) (w : ResponseWriter) : ResponseWriter :=
  {| Header := <[k := v]> (Header w); Status := Status w; Body := Body w |}.

Definition WriteHeader (code : nat) (w : ResponseWriter) : ResponseWriter :=
  {| Header := Header w;
     Status := if (Status w =? 0)%nat then code else Status w;
     Body := Body w |}.

Definition StatusOK : nat := 200.
Definition StatusBadRequest : nat := 400.
Definition StatusNotFound : nat := 404.
Definition StatusMethodNotAllowed : nat := 405.
Definition StatusRequestTimeout : nat := 408.
Definition StatusInternalServerError : nat := 500.

Definition newline : string := String "010" EmptyString.

(** [http.Error]: a plain-text reply, the message followed by a newline. *)
Definition http_Error (w : ResponseWriter) (msg : string) (code : nat)
  : ResponseWriter :=
  let w1 := header_set "Content-Type" "text/plain; charset=utf-8" w in
  let w2 := header_set "X-Content-Type-Options" "nosniff" w1 in
  let w3 := WriteHeader code w2 in
  {| Header := Header w3; Status := Status w3; Body := BodyText (msg ++ newline) |}.

(** [json.NewEncoder(w).Encode(v)]: the first write sends status 200. *)
Definition json_Encode (v : json) (w : ResponseWriter) : ResponseWriter :=
  let w1 := WriteHeader StatusOK w in
  {| Header := Header w1; Status := Status w1; Body := BodyJSON v |}.

(** The parts of an [*http.Request] the handler looks at.  Decoding the
    body is the work of [encoding/json] and [net/http]; its outcome is part
    of the request: [inl] carries the error. *)
Record Request := {
  Method : string;
  URLPath : string;
  QueryContent : string;                       (* r.URL.Query().Get("content") *)
  ContentType : string;                        (* r.Header.Get("Content-Type") *)
  JSONBody : string + gmap string json;        (* Decode(&jsonData) *)
  FormContent : string + string                (* ParseForm, FormValue("content") *)
}.

(** ** Channels of capacity one *)

Record chan := {
  chan_buf : list ScriptHTTPResult;
  chan_closed : bool
}.

Definition chan_cap : nat := 1.

(** [make(chan ScriptHTTPResult, 1)]. *)
Definition make_chan : chan := {| chan_buf := []; chan_closed := false |}.

Inductive send_result : Type :=
| Sent (c : chan)        (* the value went into the buffer *)
| WouldBlock             (* the buffer is full: the [default] case runs *)
| SendPanic.             (* send on a closed channel *)

(** The send case of a [select] that has a [default]. *)
Definition chan_try_send (v : ScriptHTTPResult) (c : chan) : send_result :=
  if chan_closed c then SendPanic
  else if (length (chan_buf c) <? chan_cap)%nat
       then Sent {| chan_buf := chan_buf c ++ [v]; chan_closed := false |}
       else WouldBlock.

(** A receive that can proceed: a buffered value, or the zero value of a
    closed channel.  [None]: the receiver stays blocked. *)
Definition chan_try_recv (c : chan) : option (ScriptHTTPResult * chan) :=
  match chan_buf c with
  | v :: rest => Some (v, {| chan_buf := rest; chan_closed := chan_closed c |})
  | [] => if chan_closed c then Some (zero_result, c) else None
  end.

(** A channel once closed: what it buffers stays to be received. *)
Definition closed_copy (c : chan) : chan :=
  {| chan_buf := chan_buf c; chan_closed := true |}.

(** [close(c)] panics on a channel that is closed already. *)
Definition chan_close (c : chan) : option chan :=
  if chan_closed c then None else Some (closed_copy c).

(** ** Package state *)

(** A call of [globalScriptEventCallback]. *)
Record Event := {
  ev_name : string;
  ev_requestID : string;
  ev_scriptID : string;
  ev_content : string
}.

Record state := {
  httpServer : bool;                           (* httpServer != nil *)
  enabledScripts : gmap string UserScript;
  scriptResults : gmap string nat;             (* requestID -> channel *)
  requestCounter : Z;
  cleanupTicker : bool;                        (* cleanupTicker != nil *)
  cleanupStopChan : bool;                      (* cleanupStopChan != nil *)
  globalScriptEventCallback : bool;            (* set in another file; != nil *)
  chans : list chan;                           (* channel store *)
  events : list Event                          (* calls of the callback so far *)
}.

Definition init_state : state :=
  {| httpServer := false; enabledScripts := ∅; scriptResults := ∅;
     requestCounter := 0; cleanupTicker := false; cleanupStopChan := false;
     globalScriptEventCallback := false; chans := []; events := [] |}.

Definition set_httpServer (b : bool) (s : state) : state :=
  {| httpServer := b; enabledScripts := enabledScripts s;
     scriptResults := scriptResults s; requestCounter := requestCounter s;
     cleanupTicker := cleanupTicker s; cleanupStopChan := cleanupStopChan s;
     globalScriptEventCallback := globalScriptEventCallback s;
     chans := chans s; events := events s |}.

Definition set_enabledScripts (m : gmap string UserScript) (s : state) : state :=
  {| httpServer := httpServer s; enabledScripts := m;
     scriptResults := scriptResults s; requestCounter := requestCounter s;
     cleanupTicker := cleanupTicker s; cleanupStopChan := cleanupStopChan s;
     globalScriptEventCallback := globalScriptEventCallback s;
     chans := chans s; events := events s |}.

Definition set_scriptResults (m : gmap string nat) (s : state) : state :=
  {| httpServer := httpServer s; enabledScripts := enabledScripts s;
     scriptResults := m; requestCounter := requestCounter s;
     cleanupTicker := cleanupTicker s; cleanupStopChan := cleanupStopChan s;
     globalScriptEventCallback := globalScriptEventCallback s;
     chans := chans s; events := events s |}.

Definition set_requestCounter (n : Z) (s : state) : state :=
  {| httpServer := httpServer s; enabledScripts := enabledScripts s;
     scriptResults := scriptResults s; requestCounter := n;
     cleanupTicker := cleanupTicker s; cleanupStopChan := cleanupStopChan s;
     globalScriptEventCallback := globalScriptEventCallback s;
     chans := chans s; events := events s |}.

Definition set_cleanup (ticker stopChan : bool) (s : state) : state :=
  {| httpServer := httpServer s; enabledScripts := enabledScripts s;
     scriptResults := scriptResults s; requestCounter := requestCounter s;
     cleanupTicker := ticker; cleanupStopChan := stopChan;
     globalScriptEventCallback := globalScriptEventCallback s;
     chans := chans s; events := events s |}.

Definition set_callback (b : bool) (s : state) : state :=
  {| httpServer := httpServer s; enabledScripts := enabledScripts s;
     scriptResults := scriptResults s; requestCounter := requestCounter s;
     cleanupTicker := cleanupTicker s; cleanupStopChan := cleanupStopChan s;
     globalScriptEventCallback := b;
     chans := chans s; events := events s |}.

Definition set_chans (l : list chan) (s : state) : state :=
  {| httpServer := httpServer s; enabledScripts := enabledScripts s;
     scriptResults := scriptResults s; requestCounter := requestCounter s;
     cleanupTicker := cleanupTicker s; cleanupStopChan := cleanupStopChan s;
     globalScriptEventCallback := globalScriptEventCallback s;
     chans := l; events := events s |}.

Definition set_events (l : list Event) (s : state) : state :=
  {| httpServer := httpServer s; enabledScripts := enabledScripts s;
     scriptResults := scriptResults s; requestCounter := requestCounter s;
     cleanupTicker := cleanupTicker s; cleanupStopChan := cleanupStopChan s;
     globalScriptEventCallback := globalScriptEventCallback s;
     chans := chans s; events := l |}.

(** [close(resultChan)] on the store. *)
Definition close_ref (ref : nat) (s : state) : option state :=
  c ← chans s !! ref;
  c' ← chan_close c;
  Some (set_chans (<[ref := c']> (chans s)) s).

(** [delete(scriptResults, requestID)]. *)
Definition registry_delete (requestID : string) (s : state) : state :=
  set_scriptResults (delete requestID (scriptResults s)) s.

(** ** The functions of script_http_server.go *)

(** [GetScriptIdentifier].  [None] would be a slice out of range. *)
Definition GetScriptIdentifier (script : UserScript) : option string :=
  if negb (String.eqb (PluginID script) "") then Some (PluginID script)
  else if (15 <=? String.length (ID script))%nat
       then GoStrings.slice (ID script) 6 14
  else if (6 <? String.length (ID script))%nat
       then GoStrings.slice_from (ID script) 6
  else Some (ID script).

(** [StartScriptHTTPServer]; the result is the error, if any. *)
Definition StartScriptHTTPServer (s : state) : option string * state :=
  if httpServer s then (Some "HTTP 服务器已在运行", s)
  else (None, set_cleanup true true (set_httpServer true s)).

(** One round of the loops of [StopScriptHTTPServer] and
    [cleanupExpiredResults] closes the channel and deletes the entry. *)
Definition close_and_delete (requestID : string) (resultChan : nat) (s : state)
  : option state :=
  s1 ← close_ref resultChan s;
  Some (registry_delete requestID s1).

(** [StopScriptHTTPServer].  [closeErr] is what [httpServer.Close()]
    returns.  The [range] loop visits every entry of the map once. *)
Definition StopScriptHTTPServer (closeErr : option string) (s : state)
  : option (option string * state) :=
  if negb (httpServer s) then Some (None, s)
  else
    let s1 := set_cleanup false false s in
    match closeErr with
    | Some err => Some (Some ("停止 HTTP 服务器失败: " ++ err), s1)
    | None =>
        s2 ← foldl (λ acc kv, s' ← acc; close_and_delete kv.1 kv.2 s')
                   (Some s1) (map_to_list (scriptResults s1));
        Some (None, set_httpServer false s2)
    end.

(** The two loops share their shape: the entries of a snapshot of the map
    are visited in turn, and those that [P] selects are closed and deleted. *)
Definition close_where (P : string → bool) (l : list (string * nat)) (s : state)
  : option state :=
  foldl (λ acc kv, s' ← acc;
                   if P kv.1 then close_and_delete kv.1 kv.2 s' else Some s')
        (Some s) l.

(** The test of lines 135-139: the request id splits into at least two
    fields, the second scans as a number, and that number is more than 60
    seconds behind [now]. *)
Definition expired (now : Z) (requestID : string) : bool :=
  let parts := GoStrings.Split requestID "_" in
  if (2 <=? length parts)%nat then
    match GoFmt.Sscanf_d (nth 1 parts "") with
    | Some timestamp => wrap64 (now - timestamp) >? 60
    | None => false
    end
  else false.

(** The body of the [range] loop of [cleanupExpiredResults]. *)
Definition cleanup_entry (now : Z) (acc : option (Z * state)) (kv : string * nat)
  : option (Z * state) :=
  '(expiredCount, s) ← acc;
  if expired now kv.1 then
    s' ← close_and_delete kv.1 kv.2 s;
    Some (expiredCount + 1, s')
  else Some (expiredCount, s).

(** [cleanupExpiredResults], the case of one tick of [cleanupTicker]:
    [now] is [time.Now().Unix()]; the result carries [expiredCount]. *)
Definition cleanupExpiredResults (now : Z) (s : state) : option (Z * state) :=
  foldl (cleanup_entry now) (Some (0, s)) (map_to_list (scriptResults s)).

(** [EnableScriptHTTPService] once [GetUserScriptByID], which lives in
    another file, has answered [lookup]. *)
Definition EnableScriptHTTPService (lookup : string + UserScript) (s : state)
  : option (option string * state) :=
  match lookup with
  | inl err => Some (Some ("获取脚本失败: " ++ err), s)
  | inr script =>
      identifier ← GetScriptIdentifier script;
      let s1 := set_enabledScripts (<[identifier := script]> (enabledScripts s)) s in
      if negb (httpServer s1) then
        match StartScriptHTTPServer s1 with
        | (Some err, s2) => Some (Some ("启动 HTTP 服务器失败: " ++ err), s2)
        | (None, s2) => Some (None, s2)
        end
      else Some (None, s1)
  end.

(** [DisableScriptHTTPService], likewise. *)
Definition DisableScriptHTTPService (lookup : string + UserScript) (s : state)
  : option (option string * state) :=
  match lookup with
  | inl err => Some (Some ("获取脚本失败: " ++ err), s)
  | inr script =>
      identifier ← GetScriptIdentifier script;
      Some (None, set_enabledScripts (delete identifier (enabledScripts s)) s)
  end.

(** The [content] parameter (lines 277-304): [inl] is an early reply. *)
Definition extract_content (w : ResponseWriter) (r : Request)
  : ResponseWriter + string :=
  if String.eqb (Method r) "GET" then inr (QueryContent r)
  else if String.eqb (Method r) "POST" then
    if GoStrings.Contains (ContentType r) "application/json" then
      match JSONBody r with
      | inl err => inl (http_Error w ("解析 JSON 失败: " ++ err) StatusBadRequest)
      | inr jsonData =>
          match jsonData !! "content" with
          | Some (JString val) => inr val
          | _ => inr ""
          end
      end
    else
      match FormContent r with
      | inl err => inl (http_Error w ("解析表单失败: " ++ err) StatusBadRequest)
      | inr content => inr content
      end
  else inl (http_Error w "不支持的 HTTP 方法" StatusMethodNotAllowed).

(** Lines 251-253: the writer with the three CORS headers set. *)
Definition cors_writer : ResponseWriter :=
  header_set "Access-Control-Allow-Headers" "Content-Type"
    (header_set "Access-Control-Allow-Methods" "GET, POST, OPTIONS"
       (header_set "Access-Control-Allow-Origin" "*" new_writer)).

(** Lines 249-304, everything before a request id is made: the reply of an
    early return, or the writer, the script and the content. *)
Definition route (r : Request) (s : state)
  : ResponseWriter + (ResponseWriter * UserScript * string) :=
  let w := cors_writer in
  if String.eqb (Method r) "OPTIONS" then inl (WriteHeader StatusOK w)
  else
    let path := GoStrings.TrimPrefix (URLPath r) "/clip-save/" in
    if String.eqb path "" then inl (http_Error w "缺少脚本标识符" StatusBadRequest)
    else
      match enabledScripts s !! path with
      | None => inl (http_Error w "脚本未启用 HTTP 服务" StatusNotFound)
      | Some script =>
          match extract_content w r with
          | inl w' => inl w'
          | inr content => inr (w, script, content)
          end
      end.

(** [fmt.Sprintf("req_%d_%d", timestamp, counter)]. *)
Definition requestID_of (timestamp counter : Z) : string :=
  "req_" ++ GoFmt.FormatInt timestamp ++ "_" ++ GoFmt.FormatInt counter.

(** Lines 307-310, one critical section of [requestCounterMutex]. *)
Definition mintRequestID (now : Z) (s : state) : string * state :=
  let s1 := set_requestCounter (wrap64 (requestCounter s + 1)) s in
  (requestID_of now (requestCounter s1), s1).

(** Lines 313-316: a fresh channel is stored under the request id. *)
Definition registerSlot (requestID : string) (s : state) : nat * state :=
  let resultChan := length (chans s) in
  let s1 := set_chans (chans s ++ [make_chan]) s in
  (resultChan, set_scriptResults (<[requestID := resultChan]> (scriptResults s1)) s1).

(** Where a call of the handler stands when it returns or blocks. *)
Inductive handler_result : Type :=
| Returned (w : ResponseWriter)
    (* returned before a request id was made *)
| Unavailable (w : ResponseWriter) (requestID : string)
    (* returned at line 327, the callback being nil *)
| Waiting (w : ResponseWriter) (requestID : string) (resultChan : nat).
    (* blocked in the select of line 331 *)

(** [handleScriptHTTPRequest] up to its [select] (lines 249-329). *)
Definition handle_begin (now : Z) (r : Request) (s : state)
  : handler_result * state :=
  match route r s with
  | inl w => (Returned w, s)
  | inr (w, script, content) =>
      let '(requestID, s1) := mintRequestID now s in
      let '(resultChan, s2) := registerSlot requestID s1 in
      if globalScriptEventCallback s2 then
        let ev := {| ev_name := "script.http.execute"; ev_requestID := requestID;
                     ev_scriptID := ID script; ev_content := content |} in
        (Waiting w requestID resultChan, set_events (events s2 ++ [ev]) s2)
      else
        (Unavailable (http_Error w "脚本执行器未初始化" StatusInternalServerError)
                     requestID, s2)
  end.

(** The two cases of the [select] of line 331. *)
Inductive select_case : Type := CaseResult | CaseTimeout.

(** Lines 339-348. *)
Definition write_result (result : ScriptHTTPResult) (w : ResponseWriter)
  : ResponseWriter :=
  let w1 := header_set "Content-Type" "application/json" w in
  if negb (String.eqb (Error result) "")
  then json_Encode (JObject [("error", JString (Error result))]) w1
  else json_Encode (JObject [("returnValue", ReturnValue result)]) w1.

(** [handleScriptHTTPRequest] from its [select] on (lines 331-357), for a
    handler blocked with the locals [w], [requestID], [resultChan].
    [CaseResult] can run when the receive can proceed; [CaseTimeout] is the
    30-second timer.  [None]: the chosen case cannot run. *)
Definition handle_select (w : ResponseWriter) (requestID : string)
    (resultChan : nat) (c : select_case) (s : state)
  : option (ResponseWriter * state) :=
  match c with
  | CaseResult =>
      ch ← chans s !! resultChan;
      '(result, ch') ← chan_try_recv ch;
      let s1 := set_chans (<[resultChan := ch']> (chans s)) s in
      Some (write_result result w, registry_delete requestID s1)
  | CaseTimeout =>
      Some (http_Error w "脚本执行超时" StatusRequestTimeout,
            registry_delete requestID s)
  end.

(** [SetScriptHTTPResult].  The function has no result; [None] is a
    panic. *)
Definition SetScriptHTTPResult (requestID : string) (result : ScriptHTTPResult)
    (s : state) : option (unit * state) :=
  match scriptResults s !! requestID with
  | Some resultChan =>
      ch ← chans s !! resultChan;
      match chan_try_send result ch with
      | Sent ch' => Some (tt, set_chans (<[resultChan := ch']> (chans s)) s)
      | WouldBlock => Some (tt, s)
      | SendPanic => None
      end
  | None => Some (tt, s)
  end.

(** ** Runs of the package *)

(** [time.Now().Unix()] is an [int64]; the wall clock is taken to read a
    time at or after the Unix epoch. *)
Definition clock (now : Z) : Prop := 0 <= now <= INT64_MAX.

(** What the package does in one step, with what the caller sees of it. *)
Inductive label : Type :=
| LEnable (lookup : string + UserScript) (err : option string)
| LDisable (lookup : string + UserScript) (err : option string)
| LStart (err : option string)
| LStop (closeErr err : option string)
| LSetCallback (b : bool)
| LRequest (now : Z) (r : Request) (res : handler_result)
| LSelect (w : ResponseWriter) (requestID : string) (resultChan : nat)
          (c : select_case) (w' : ResponseWriter)
| LSetResult (requestID : string) (result : ScriptHTTPResult)
| LTick (now expiredCount : Z).

(** One step of the package: a whole call, one tick of the sweeper, or one
    of the two parts of the handler.  The sweeper ticks while its ticker is
    there; the callback variable is assigned by other files; a panic is no
    step. *)
Inductive step : state → label → state → Prop :=
| step_enable lookup err s s' :
    EnableScriptHTTPService lookup s = Some (err, s') →
    step s (LEnable lookup err) s'
| step_disable lookup err s s' :
    DisableScriptHTTPService lookup s = Some (err, s') →
    step s (LDisable lookup err) s'
| step_start err s s' :
    StartScriptHTTPServer s = (err, s') →
    step s (LStart err) s'
| step_stop closeErr err s s' :
    StopScriptHTTPServer closeErr s = Some (err, s') →
    step s (LStop closeErr err) s'
| step_callback b s :
    step s (LSetCallback b) (set_callback b s)
| step_request now r res s s' :
    clock now →
    handle_begin now r s = (res, s') →
    step s (LRequest now r res) s'
| step_select w requestID resultChan c w' s s' :
    handle_select w requestID resultChan c s = Some (w', s') →
    step s (LSelect w requestID resultChan c w') s'
| step_result requestID result s s' :
    SetScriptHTTPResult requestID result s = Some (tt, s') →
    step s (LSetResult requestID result) s'
| step_tick now expiredCount s s' :
    cleanupTicker s = true →
    clock now →
    cleanupExpiredResults now s = Some (expiredCount, s') →
    step s (LTick now expiredCount) s'.

(** A handler is blocked on [requestID], [resultChan] after the history
    [ls] (latest step first) when it entered its [select] and has not left
    it. *)
Definition blocked (ls : list label) (w : ResponseWriter) (requestID : string)
    (resultChan : nat) : Prop :=
  (∃ now r, LRequest now r (Waiting w requestID resultChan) ∈ ls) ∧
  (∀ c w', LSelect w requestID resultChan c w' ∉ ls).

(** A [select] is left only by the handler that is blocked in it. *)
Definition enabled (ls : list label) (l : label) : Prop :=
  match l with
  | LSelect w requestID resultChan _ _ => blocked ls w requestID resultChan
  | _ => True
  end.

(** The states the package reaches from its initial state, with the
    history that led there, latest step first. *)
Inductive run : list label → state → Prop :=
| run_init : run [] init_state
| run_step ls s l s' :
    run ls s → enabled ls l → step s l s' → run (l :: ls) s'.

(** The request ids made in a history, latest first. *)
Definition minted_by (l : label) : list string :=
  match l with
  | LRequest _ _ (Unavailable _ requestID) => [requestID]
  | LRequest _ _ (Waiting _ requestID _) => [requestID]
  | _ => []
  end.

Definition minted (ls : list label) : list string := concat (map minted_by ls).

(** The number that the field [i] of a request id holds. *)
Definition token_field (i : nat) (requestID : string) : option Z :=
  let parts := GoStrings.Split requestID "_" in
  if (i <? length parts)%nat then GoFmt.Sscanf_d (nth i parts "") else None.

Definition token_timestamp : string → option Z := token_field 1.
Definition token_counter : string → option Z := token_field 2.

(** The request id's timestamp is more than 60 seconds before [now], as
    integers. *)
Definition older_than_60 (now : Z) (requestID : string) : bool :=
  match token_timestamp requestID with
  | Some timestamp => 60 <? now - timestamp
  | None => false
  end.

(** ** Well-formed states *)

(** Every key of the registry was made by line 309 from a clock reading. *)
Definition keys_minted (s : state) : Prop :=
  ∀ k ref, scriptResults s !! k = Some ref →
    ∃ ts c, k = requestID_of ts c ∧ clock ts ∧ int64 c.

(** Every registered channel is in the store and open. *)
Definition registered_open (s : state) : Prop :=
  ∀ k ref, scriptResults s !! k = Some ref →
    ∃ ch, chans s !! ref = Some ch ∧ chan_closed ch = false.

(** No channel is registered under two request ids. *)
Definition registered_inj (s : state) : Prop :=
  ∀ k1 k2 ref, scriptResults s !! k1 = Some ref →
    scriptResults s !! k2 = Some ref → k1 = k2.

(** No channel holds more than its capacity. *)
Definition within_cap (s : state) : Prop :=
  ∀ ref ch, chans s !! ref = Some ch → (length (chan_buf ch) <= chan_cap)%nat.

Record wf (s : state) : Prop := {
  wf_keys : keys_minted s;
  wf_open : registered_open s;
  wf_inj : registered_inj s;
  wf_cap : within_cap s
}.

(** A handler blocked in its [select] can still be reached: its request
    id is registered with its channel, or its channel has been closed. *)
Definition blocked_live (ls : list label) (s : state) : Prop :=
  ∀ w requestID resultChan,
    blocked ls w requestID resultChan →
    scriptResults s !! requestID = Some resultChan ∨
    ∃ c, chans s !! resultChan = Some c ∧ chan_closed c = true.

(** ** The response bodies as the specification words them *)

(** "on success, {"returnValue": <value or omitted>}": the member is left
    out when there is no value. *)
Definition spec_success_body (result : ScriptHTTPResult) : body :=
  BodyJSON (JObject match ReturnValue result with
                    | JNull => []
                    | v => [("returnValue", v)]
                    end).

(** ** A small scenario *)

Definition demo_script : UserScript :=
  {| ID := "script-0123456789"; PluginID := "abc123"; Name := "demo" |}.

Definition demo_get : Request :=
  {| Method := "GET"; URLPath := "/clip-save/abc123"; QueryContent := "test";
     ContentType := ""; JSONBody := inr ∅; FormContent := inr "" |}.

Definition demo_post : Request :=
  {| Method := "POST"; URLPath := "/clip-save/abc123"; QueryContent := "";
     ContentType := "application/json";
     JSONBody := inr {[ "content" := JString "hello" ]};
     FormContent := inr "" |}.

(** The script is enabled (which starts the server); no callback is set. *)
Definition demo_enabled : state :=
  {| httpServer := true; enabledScripts := {[ "abc123" := demo_script ]};
     scriptResults := ∅; requestCounter := 0;
     cleanupTicker := true; cleanupStopChan := true;
     globalScriptEventCallback := false; chans := []; events := [] |}.

(** The callback is set as well. *)
Definition demo_ready : state := set_callback true demo_enabled.

(** A request made at second 1700000000 is waiting for its result. *)
Definition demo_waiting : state :=
  (handle_begin 1700000000 demo_get demo_ready).2.

Definition demo_history : list label :=
  [ LRequest 1700000000 demo_get (Waiting cors_writer "req_1700000000_1" 0);
    LSetCallback true;
    LEnable (inr demo_script) None ].

(** A second request arrives within the same second. *)
Definition demo_waiting2 : state :=
  (handle_begin 1700000000 demo_post demo_waiting).2.

Definition demo_history2 : list label :=
  LRequest 1700000000 demo_post (Waiting cors_writer "req_1700000000_2" 1)
  :: demo_history.

(** A script result that carries both an error and a value. *)
Definition demo_both : ScriptHTTPResult :=
  {| ReturnValue := JString "HELLO"; Error := "boom" |}.

(** ** Two claims as the specification words them *)

(** "stop ... waking any Dispatcher threads still blocked ... so they
    resolve to a server-stopped condition": the reply of a handler woken by
    the stop is not the reply to any delivered result. *)
Definition stop_reports_server_stopped : Prop :=
  ∀ ls s w requestID resultChan s1,
    run ls s → blocked ls w requestID resultChan →
    scriptResults s !! requestID = Some resultChan →
    StopScriptHTTPServer None s = Some (None, s1) →
    ∃ w' s2,
      handle_select w requestID resultChan CaseResult s1 = Some (w', s2) ∧
      ∀ result, w' ≠ write_result result w.

(** "deliver(token, outcome) -> bool ... returns whether the write
    succeeded (false if no slot exists)": what the sink returns reads as
    false for a request id that is not registered and as true when the
    outcome went into the slot. *)
Definition sink_returns_whether_written : Prop :=
  ∃ as_bool : unit → bool,
    (∀ s requestID result r s',
       scriptResults s !! requestID = None →
       SetScriptHTTPResult requestID result s = Some (r, s') →
       as_bool r = false) ∧
    (∀ s requestID resultChan result r s',
       scriptResults s !! requestID = Some resultChan →
       chans s !! resultChan = Some make_chan →
       SetScriptHTTPResult requestID result s = Some (r, s') →
       as_bool r = true).

(** ** The rest of the script registry *)

(** [IsScriptHTTPServiceEnabled], [GetUserScriptByID] having answered
    [lookup]. *)
Definition IsScriptHTTPServiceEnabled (lookup : string + UserScript) (s : state)
  : option bool :=
  match lookup with
  | inl _ => Some false
  | inr script =>
      identifier ← GetScriptIdentifier script;
      Some match enabledScripts s !! identifier with
           | Some _ => true
           | None => false
           end
  end.

(** [GetScriptHTTPURL]: [inl] is the error, [inr] the URL.  [ip] is what
    [getLocalIP] returns, which asks the operating system for the local
    address of a UDP socket; it is called once the script is found. *)
Definition GetScriptHTTPURL (lookup : string + UserScript) (ip : string + string)
  : option (string + string) :=
  match lookup with
  | inl err => Some (inl ("获取脚本失败: " ++ err))
  | inr script =>
      identifier ← GetScriptIdentifier script;
      match ip with
      | inl err => Some (inl ("获取本机 IP 失败: " ++ err))
      | inr addr =>
          Some (inr ("http://" ++ addr ++ ":6527/clip-save/" ++ identifier
                     ++ "?content=xx"))
      end
  end.

(** The three headers of lines 251-253 are on a reply. *)
Definition has_cors (w : ResponseWriter) : Prop :=
  Header w !! "Access-Control-Allow-Origin" = Some "*" ∧
  Header w !! "Access-Control-Allow-Methods" = Some "GET, POST, OPTIONS" ∧
  Header w !! "Access-Control-Allow-Headers" = Some "Content-Type".

(** The status of the reply with which the handler turns a request away
    before it makes a request id, by the order of the checks of lines
    255-304; [None] when the request passes them all. *)
Definition rejection_status (r : Request) (s : state) : option nat :=
  let path := GoStrings.TrimPrefix (URLPath r) "/clip-save/" in
  if String.eqb (Method r) "OPTIONS" then Some StatusOK
  else if String.eqb path "" then Some StatusBadRequest
  else if negb (bool_decide (is_Some (enabledScripts s !! path)))
       then Some StatusNotFound
  else if String.eqb (Method r) "GET" then None
  else if String.eqb (Method r) "POST" then
    if GoStrings.Contains (ContentType r) "application/json"
    then (if JSONBody r is inl _ then Some StatusBadRequest else None)
    else (if FormContent r is inl _ then Some StatusBadRequest else None)
  else Some StatusMethodNotAllowed.

(** ** More scenarios *)

(** Two scripts without plugin id whose ids agree on the bytes 6 to 13. *)
Definition demo_a : UserScript :=
  {| ID := "script-12345678-A"; PluginID := ""; Name := "a" |}.

Definition demo_b : UserScript :=
  {| ID := "script-12345678-B"; PluginID := ""; Name := "b" |}.

(** A script with neither id nor plugin id. *)
Definition demo_anonymous : UserScript :=
  {| ID := ""; PluginID := ""; Name := "anonymous" |}.

Definition demo_delete : Request :=
  {| Method := "DELETE"; URLPath := "/clip-save/abc123"; QueryContent := "";
     ContentType := ""; JSONBody := inr ∅; FormContent := inr "" |}.

Definition demo_root : Request :=
  {| Method := "GET"; URLPath := "/clip-save/"; QueryContent := "test";
     ContentType := ""; JSONBody := inr ∅; FormContent := inr "" |}.

(** The request of [demo_post] was turned away with 500, the callback
    being nil. *)
Definition demo_leaked : state :=
  (handle_begin 1700000000 demo_post demo_enabled).2.

Definition demo_history_leaked : list label :=
  [ LRequest 1700000000 demo_post
      (Unavailable (http_Error cors_writer "脚本执行器未初始化"
                      StatusInternalServerError) "req_1700000000_1");
    LEnable (inr demo_script) None ].


(** The sweeper ticks 61 seconds later. *)
Definition demo_swept : state :=
  match cleanupExpiredResults 1700000061 demo_leaked with
  | Some (_, s) => s
  | None => demo_leaked
  end.
(** * Properties *)

(** ** Decimal formatting and scanning are inverse *)

Section Decimal.
Import GoFmt GoStrings.

Lemma nat_of_digit_char d :
  0 <= d < 10 → nat_of_ascii (digit_char d) = Z.to_nat (48 + d).
Proof. intros Hd. unfold digit_char. apply nat_ascii_embedding. lia. Qed.

Lemma digit_char_is_digit d : 0 <= d < 10 → is_digit (digit_char d) = true.
Proof.
  intros Hd. unfold is_digit. rewrite nat_of_digit_char by done.
  apply andb_true_iff. split; apply Nat.leb_le; lia.
Qed.

Lemma digit_val_char d : 0 <= d < 10 → digit_val (digit_char d) = d.
Proof. intros Hd. unfold digit_val. rewrite nat_of_digit_char by done. lia. Qed.

Lemma is_digit_not a b :
  is_digit a = true → is_digit b = false → Ascii.eqb a b = false.
Proof.
  intros Ha Hb. apply Ascii.eqb_neq. intros ->. congruence.
Qed.

Lemma mod10_bound n : 0 <= n mod 10 < 10.
Proof. apply Z.mod_pos_bound. lia. Qed.

Lemma format_digits_app fuel n acc rest :
  (format_digits fuel n acc ++ rest)%string = format_digits fuel n (acc ++ rest).
Proof.
  revert n acc. induction fuel as [|fuel IH]; intros n acc; simpl; [done|].
  destruct (n / 10 =? 0); [done|]. by rewrite IH.
Qed.

Lemma format_digits_head fuel n acc :
  ∃ d rest, format_digits fuel n acc = String d rest ∧ is_digit d = true.
Proof.
  revert n acc. induction fuel as [|fuel IH]; intros n acc; simpl.
  - eauto using digit_char_is_digit, mod10_bound.
  - destruct (n / 10 =? 0); [|apply IH].
    eauto using digit_char_is_digit, mod10_bound.
Qed.

Lemma scan_format_digits fuel n acc :
  0 <= n < 2 ^ (Z.of_nat fuel + 1) →
  scan_digits (format_digits fuel n acc) 0 = scan_digits acc n.
Proof.
  revert n acc. induction fuel as [|fuel IH]; intros n acc Hn.
  - simpl. rewrite digit_char_is_digit, digit_val_char by apply mod10_bound.
    change (2 ^ (Z.of_nat 0 + 1)) with 2 in Hn.
    f_equal. rewrite Z.mod_small; lia.
  - simpl format_digits. destruct (n / 10 =? 0) eqn:Hq.
    + simpl. rewrite digit_char_is_digit, digit_val_char by apply mod10_bound.
      apply Z.eqb_eq in Hq. f_equal.
      pose proof (Z.div_mod n 10 ltac:(lia)). lia.
    + rewrite IH.
      * simpl. rewrite digit_char_is_digit, digit_val_char by apply mod10_bound.
        f_equal. pose proof (Z.div_mod n 10 ltac:(lia)). lia.
      * replace (Z.of_nat (S fuel) + 1) with (Z.succ (Z.of_nat fuel + 1)) in Hn by lia.
        rewrite Z.pow_succ_r in Hn by lia.
        split; [apply Z.div_pos; lia|].
        apply Z.div_lt_upper_bound; lia.
Qed.

Lemma format_uint_fuel n : 0 <= n → 0 <= n < 2 ^ (Z.of_nat (Z.to_nat (Z.log2 n)) + 1).
Proof.
  intros Hn. rewrite Z2Nat.id by apply Z.log2_nonneg.
  destruct (Z.eq_dec n 0) as [->|Hne]; [done|].
  pose proof (Z.log2_spec n ltac:(lia)) as H. unfold Z.succ in H. lia.
Qed.

Lemma scan_format_uint n : 0 <= n → scan_digits (format_uint n) 0 = (n, "").
Proof.
  intros Hn. unfold format_uint.
  by rewrite scan_format_digits by by apply format_uint_fuel.
Qed.

Lemma scan_int_digits s d rest :
  s = String d rest → is_digit d = true →
  scan_int s =
    let n := (scan_digits s 0).1 in
    if (INT64_MIN <=? n) && (n <=? INT64_MAX) then Some n else None.
Proof.
  intros -> Hd. unfold scan_int.
  rewrite (is_digit_not d "-"), (is_digit_not d "+") by done.
  by rewrite Hd.
Qed.

Lemma skip_space_digit d rest :
  is_digit d = true → skip_space (String d rest) = Some (String d rest).
Proof.
  intros Hd. simpl.
  assert (Ascii.eqb d "010" = false) as H1 by by apply is_digit_not.
  assert (is_blank d = false) as H2.
  { unfold is_digit in Hd. apply andb_true_iff in Hd as [H3 H4].
    apply Nat.leb_le in H3, H4. unfold is_blank.
    repeat (apply orb_false_iff; split); apply Nat.eqb_neq; lia. }
  rewrite H2.
  destruct (nat_of_ascii d =? 10)%nat eqn:E; [|done].
  apply Nat.eqb_eq in E. unfold is_digit in Hd.
  rewrite E in Hd. done.
Qed.

(** [Sscanf] reads back what [Sprintf] wrote. *)
Lemma Sscanf_d_FormatInt z : int64 z → Sscanf_d (FormatInt z) = Some z.
Proof.
  intros [Hlo Hhi]. unfold Sscanf_d, FormatInt.
  destruct (z <? 0) eqn:Hz.
  - apply Z.ltb_lt in Hz.
    destruct (format_digits_head (Z.to_nat (Z.log2 (- z))) (- z) "")
      as (d & rest & Hfmt & Hd).
    simpl. unfold scan_int. simpl. fold (format_uint (- z)) in Hfmt.
    rewrite Hfmt, Hd, <- Hfmt, scan_format_uint by lia. simpl.
    rewrite Z.opp_involutive.
    destruct (INT64_MIN <=? z) eqn:E1; [|apply Z.leb_gt in E1; lia].
    destruct (z <=? INT64_MAX) eqn:E2; [done|apply Z.leb_gt in E2; lia].
  - apply Z.ltb_ge in Hz.
    destruct (format_digits_head (Z.to_nat (Z.log2 z)) z "")
      as (d & rest & Hfmt & Hd).
    fold (format_uint z) in Hfmt. rewrite Hfmt, skip_space_digit by done.
    simpl. rewrite (scan_int_digits _ d rest) by done.
    rewrite <- Hfmt, scan_format_uint by done. simpl.
    destruct (INT64_MIN <=? z) eqn:E1; [|apply Z.leb_gt in E1; lia].
    destruct (z <=? INT64_MAX) eqn:E2; [done|apply Z.leb_gt in E2; lia].
Qed.

(** A formatted number has no underscore in it. *)
Lemma Split_format_digits fuel n acc p ps :
  Split acc "_" = p :: ps →
  Split (format_digits fuel n acc) "_" = format_digits fuel n p :: ps.
Proof.
  assert (∀ m acc p ps, Split acc "_" = p :: ps →
            Split (String (digit_char (m mod 10)) acc) "_"
            = String (digit_char (m mod 10)) p :: ps) as Hone.
  { intros m acc' p' ps' H. simpl.
    rewrite (is_digit_not _ "_"), H; [done| |done].
    apply digit_char_is_digit, mod10_bound. }
  revert n acc p ps. induction fuel as [|fuel IH]; intros n acc p ps H; simpl.
  - by apply Hone.
  - destruct (n / 10 =? 0); [by apply Hone|]. apply IH. by apply Hone.
Qed.

Lemma string_app_nil_l (s : string) : ("" ++ s)%string = s.
Proof. reflexivity. Qed.

Lemma string_app_cons a (s t : string) :
  (String a s ++ t)%string = String a (s ++ t).
Proof. reflexivity. Qed.

Lemma Split_FormatInt z acc p ps :
  Split acc "_" = p :: ps →
  Split (FormatInt z ++ acc) "_" = (FormatInt z ++ p)%string :: ps.
Proof.
  intros H. unfold FormatInt, format_uint. destruct (z <? 0).
  - rewrite !string_app_cons, !format_digits_app, !string_app_nil_l.
    simpl. by rewrite (Split_format_digits _ _ _ _ _ H).
  - rewrite !format_digits_app, !string_app_nil_l.
    by apply Split_format_digits.
Qed.

Lemma string_app_empty_r (s : string) : (s ++ "")%string = s.
Proof.
  induction s as [|a s IH]; [done|]. by rewrite string_app_cons, IH.
Qed.

Lemma Split_requestID_of ts c :
  Split (requestID_of ts c) "_" = ["req"; FormatInt ts; FormatInt c].
Proof.
  assert (Split (FormatInt c) "_" = [FormatInt c]) as Hc.
  { rewrite <- (string_app_empty_r (FormatInt c)) at 1.
    rewrite (Split_FormatInt c "" "" []) by done.
    by rewrite string_app_empty_r. }
  unfold requestID_of. rewrite !string_app_cons, !string_app_nil_l.
  simpl. rewrite (Split_FormatInt ts _ "" [FormatInt c]).
  - by rewrite string_app_empty_r.
  - simpl. by rewrite Hc.
Qed.

Lemma token_timestamp_requestID_of ts c :
  int64 ts → token_timestamp (requestID_of ts c) = Some ts.
Proof.
  intros H. unfold token_timestamp, token_field.
  rewrite Split_requestID_of. simpl. by apply Sscanf_d_FormatInt.
Qed.

Lemma token_counter_requestID_of ts c :
  int64 c → token_counter (requestID_of ts c) = Some c.
Proof.
  intros H. unfold token_counter, token_field.
  rewrite Split_requestID_of. simpl. by apply Sscanf_d_FormatInt.
Qed.

(** Line 309 maps different pairs to different request ids. *)
Lemma requestID_of_inj ts1 c1 ts2 c2 :
  int64 ts1 → int64 c1 → int64 ts2 → int64 c2 →
  requestID_of ts1 c1 = requestID_of ts2 c2 → ts1 = ts2 ∧ c1 = c2.
Proof.
  intros H1 H2 H3 H4 Heq.
  pose proof (token_timestamp_requestID_of ts1 c1 H1) as Ht.
  pose proof (token_counter_requestID_of ts1 c1 H2) as Hc.
  rewrite Heq in Ht, Hc.
  rewrite token_timestamp_requestID_of in Ht by done.
  rewrite token_counter_requestID_of in Hc by done.
  split; congruence.
Qed.

Lemma clock_int64 now : clock now → int64 now.
Proof. unfold clock, int64, INT64_MIN, INT64_MAX. lia. Qed.

Lemma wrap64_id z : int64 z → wrap64 z = z.
Proof.
  unfold int64, INT64_MIN, INT64_MAX, wrap64. intros H.
  rewrite Z.mod_small; lia.
Qed.

(** On a request id of the package, the sweeper's test is the age test. *)
Lemma expired_requestID_of now ts c :
  clock now → clock ts →
  expired now (requestID_of ts c) = (60 <? now - ts).
Proof.
  intros Hn Ht. unfold expired. rewrite Split_requestID_of. simpl.
  rewrite Sscanf_d_FormatInt by by apply clock_int64.
  rewrite wrap64_id; [apply Z.gtb_ltb|].
  unfold clock, int64, INT64_MIN, INT64_MAX in *. lia.
Qed.

Lemma older_than_60_requestID_of now ts c :
  clock ts → older_than_60 now (requestID_of ts c) = (60 <? now - ts).
Proof.
  intros Ht. unfold older_than_60.
  by rewrite token_timestamp_requestID_of by by apply clock_int64.
Qed.

End Decimal.

(** ** Closing and deleting registered channels *)

Section Registry.

Lemma scriptResults_registry_delete k s :
  scriptResults (registry_delete k s) = delete k (scriptResults s).
Proof. reflexivity. Qed.

Lemma scriptResults_set_chans l s :
  scriptResults (set_chans l s) = scriptResults s.
Proof. reflexivity. Qed.

Lemma wf_ext s s' :
  scriptResults s' = scriptResults s → chans s' = chans s → wf s → wf s'.
Proof.
  intros Hr Hc [H1 H2 H3 H4].
  split; unfold keys_minted, registered_open, registered_inj, within_cap;
    rewrite ?Hr, ?Hc; done.
Qed.

Lemma wf_init : wf init_state.
Proof.
  split.
  - intros k ref H. simpl in H. by rewrite lookup_empty in H.
  - intros k ref H. simpl in H. by rewrite lookup_empty in H.
  - intros k1 k2 ref H. simpl in H. by rewrite lookup_empty in H.
  - intros ref ch H. simpl in H. by rewrite lookup_nil in H.
Qed.

Lemma wf_delete k s : wf s → wf (registry_delete k s).
Proof.
  intros [H1 H2 H3 H4]. split.
  - intros k' ref H. simpl in H. apply lookup_delete_Some in H as [_ H]. eauto.
  - intros k' ref H. simpl in H. apply lookup_delete_Some in H as [_ H].
    apply (H2 k' ref H).
  - intros k1 k2 ref Ha Hb. simpl in Ha, Hb.
    apply lookup_delete_Some in Ha as [_ Ha], Hb as [_ Hb]. eauto.
  - intros ref ch H. apply (H4 ref ch H).
Qed.

(** Replacing a channel by one with the same open/closed status and a
    buffer within capacity keeps the state well formed. *)
Lemma wf_update ref c c' s :
  wf s → chans s !! ref = Some c →
  chan_closed c' = chan_closed c →
  (length (chan_buf c') <= chan_cap)%nat →
  wf (set_chans (<[ref := c']> (chans s)) s).
Proof.
  intros [H1 H2 H3 H4] Hc Hcl Hcap. split.
  - intros k r H. apply (H1 k r H).
  - intros k r H. simpl in *. destruct (H2 k r H) as (ch & Hch & Hopen).
    destruct (decide (r = ref)) as [->|Hne].
    + exists c'. rewrite list_lookup_insert_eq by eauto using lookup_lt_Some.
      split; [done|]. congruence.
    + exists ch. by rewrite list_lookup_insert_ne.
  - intros k1 k2 r Ha Hb. apply (H3 k1 k2 r Ha Hb).
  - intros r ch H. simpl in H.
    destruct (decide (r = ref)) as [->|Hne].
    + rewrite list_lookup_insert_eq in H by eauto using lookup_lt_Some.
      by simplify_eq.
    + rewrite list_lookup_insert_ne in H by done. eauto.
Qed.

Lemma close_and_delete_eq k ref s :
  wf s → scriptResults s !! k = Some ref →
  ∃ c, chans s !! ref = Some c ∧
    close_and_delete k ref s
    = Some (registry_delete k (set_chans (<[ref := closed_copy c]> (chans s)) s)).
Proof.
  intros Hwf Hk. destruct (wf_open s Hwf k ref Hk) as (c & Hc & Hopen).
  exists c. split; [done|].
  unfold close_and_delete, close_ref, chan_close. rewrite Hc. simpl.
  by rewrite Hopen.
Qed.

Lemma wf_close_and_delete k ref c s :
  wf s → scriptResults s !! k = Some ref → chans s !! ref = Some c →
  wf (registry_delete k (set_chans (<[ref := closed_copy c]> (chans s)) s)).
Proof.
  intros [H1 H2 H3 H4] Hk Hc. split.
  - intros k' r H. simpl in H. apply lookup_delete_Some in H as [_ H]. eauto.
  - intros k' r H. simpl in *. apply lookup_delete_Some in H as [Hne H].
    destruct (H2 k' r H) as (ch & Hch & Hopen). exists ch.
    rewrite list_lookup_insert_ne; [done|].
    intros ->. apply Hne. eauto.
  - intros k1 k2 r Ha Hb. simpl in Ha, Hb.
    apply lookup_delete_Some in Ha as [_ Ha], Hb as [_ Hb]. eauto.
  - intros r ch H. simpl in H.
    destruct (decide (r = ref)) as [->|Hne].
    + rewrite list_lookup_insert_eq in H by eauto using lookup_lt_Some.
      simplify_eq. simpl. eauto.
    + rewrite list_lookup_insert_ne in H by done. eauto.
Qed.

(** The loop over a snapshot [l] of the registry. *)
Lemma close_where_spec P l : ∀ s,
  wf s → NoDup l.*1 →
  (∀ k ref, (k, ref) ∈ l → scriptResults s !! k = Some ref) →
  ∃ s', close_where P l s = Some s' ∧ wf s' ∧
    requestCounter s' = requestCounter s ∧
    (∀ k, scriptResults s' !! k
          = if P k && bool_decide (k ∈ l.*1) then None else scriptResults s !! k) ∧
    (∀ k ref, (k, ref) ∈ l → P k = true →
       ∃ c, chans s !! ref = Some c ∧ chans s' !! ref = Some (closed_copy c)) ∧
    (∀ ref, (∀ k, (k, ref) ∈ l → P k = false) → chans s' !! ref = chans s !! ref).
Proof.
  induction l as [|[k ref] l IH]; intros s Hwf Hnd Hl.
  - exists s. split_and!; try done.
    + intros k. by rewrite andb_false_r.
    + intros k ref H. by apply elem_of_nil in H.
  - rewrite fmap_cons in Hnd. apply NoDup_cons in Hnd as [Hk Hnd]. simpl in Hk.
    assert (scriptResults s !! k = Some ref) as Hkref by (apply Hl; left).
    assert (∀ k', (k', ref) ∈ l → False) as Hfresh.
    { intros k' Hin. assert (k' = k) as ->.
      { eapply (wf_inj s Hwf); [apply Hl; by right|done]. }
      apply Hk. apply list_elem_of_fmap. by exists (k, ref). }
    assert (∀ k', bool_decide (k' ∈ ((k, ref) :: l).*1)
                  = bool_decide (k' = k) || bool_decide (k' ∈ l.*1)) as Hdec.
    { intros k'. rewrite <- bool_decide_or. apply bool_decide_ext.
      rewrite fmap_cons, elem_of_cons. done. }
    unfold close_where. simpl. destruct (P k) eqn:HP.
    + destruct (close_and_delete_eq k ref s Hwf Hkref) as (c & Hc & ->).
      set (s1 := registry_delete k _).
      destruct (IH s1) as (s' & Hrun & Hwf' & Hcnt & Hreg & Hcl & Hkeep).
      * by apply wf_close_and_delete.
      * done.
      * intros k' r Hin. subst s1. simpl. rewrite lookup_delete_ne.
        -- apply Hl. by right.
        -- intros ->. apply Hk. apply list_elem_of_fmap. by exists (k', r).
      * exists s'. split_and!; try done.
        -- intros k'. rewrite Hreg, Hdec. subst s1.
           rewrite scriptResults_registry_delete, scriptResults_set_chans.
           destruct (P k') eqn:HP'; repeat case_bool_decide; simplify_eq;
             rewrite ?lookup_delete_eq, ?lookup_delete_ne by done;
             try done; congruence.
        -- intros k' r Hin HP'. apply elem_of_cons in Hin as [Heq|Hin].
           ++ simplify_eq. exists c. split; [done|].
              rewrite Hkeep.
              ** subst s1. simpl.
                 by rewrite list_lookup_insert_eq by eauto using lookup_lt_Some.
              ** intros k' Hin. by destruct (Hfresh k').
           ++ destruct (Hcl k' r Hin HP') as (c' & Hc' & Hs').
              exists c'. split; [|done].
              subst s1. simpl in Hc'.
              rewrite list_lookup_insert_ne in Hc'; [done|].
              intros ->. by destruct (Hfresh k').
        -- intros r Hr. rewrite Hkeep.
           ++ subst s1. simpl. rewrite list_lookup_insert_ne; [done|].
              intros ->. specialize (Hr k ltac:(left)). congruence.
           ++ intros k' Hin. apply Hr. by right.
    + destruct (IH s) as (s' & Hrun & Hwf' & Hcnt & Hreg & Hcl & Hkeep); try done.
      { intros k' r Hin. apply Hl. by right. }
      exists s'. split_and!; try done.
      * intros k'. rewrite Hreg, Hdec.
        destruct (P k') eqn:HP'; repeat case_bool_decide; simplify_eq;
          try done; congruence.
      * intros k' r Hin HP'. apply elem_of_cons in Hin as [Heq|Hin].
        -- injection Heq as -> ->. congruence.
        -- by apply (Hcl k' r).
      * intros r Hr. apply Hkeep. intros k' Hin. apply Hr. by right.
Qed.

End Registry.

(** ** The two loops, on the registry itself *)

Section Loops.

Lemma cleanup_fold now l : ∀ acc,
  snd <$> foldl (cleanup_entry now) acc l
  = foldl (λ acc kv, s' ← acc;
             if expired now kv.1 then close_and_delete kv.1 kv.2 s' else Some s')
          (snd <$> acc) l.
Proof.
  induction l as [|[k ref] l IH]; intros acc; [done|].
  simpl. rewrite IH. f_equal.
  destruct acc as [[n s]|]; [|done]. simpl.
  destruct (expired now k); [|done].
  by destruct (close_and_delete k ref s).
Qed.

Lemma cleanupExpiredResults_close_where now s :
  snd <$> cleanupExpiredResults now s
  = close_where (expired now) (map_to_list (scriptResults s)) s.
Proof. unfold cleanupExpiredResults. by rewrite cleanup_fold. Qed.

(** One tick of the sweeper in a well-formed state. *)
Lemma cleanupExpiredResults_spec now s :
  wf s →
  ∃ n s', cleanupExpiredResults now s = Some (n, s') ∧ wf s' ∧
    requestCounter s' = requestCounter s ∧
    (∀ k, scriptResults s' !! k
          = if expired now k then None else scriptResults s !! k) ∧
    (∀ k ref, scriptResults s !! k = Some ref → expired now k = true →
       ∃ c, chans s !! ref = Some c ∧ chans s' !! ref = Some (closed_copy c)) ∧
    (∀ ref c, chans s !! ref = Some c → chan_closed c = true →
       chans s' !! ref = Some c).
Proof.
  intros Hwf.
  destruct (close_where_spec (expired now) (map_to_list (scriptResults s)) s)
    as (s' & Hrun & Hwf' & Hcnt & Hreg & Hcl & Hkeep).
  - done.
  - apply NoDup_fst_map_to_list.
  - intros k ref H. by apply elem_of_map_to_list.
  - rewrite <- cleanupExpiredResults_close_where in Hrun.
    destruct (cleanupExpiredResults now s) as [[n s'']|]; [|done].
    simpl in Hrun. injection Hrun as ->.
    exists n, s'. split_and!; try done.
    + intros k. rewrite Hreg. destruct (expired now k); [|done]. simpl.
      case_bool_decide as Hin; [done|].
      apply eq_None_not_Some. intros [ref Hk]. apply Hin.
      apply list_elem_of_fmap. exists (k, ref). split; [done|].
      by apply elem_of_map_to_list.
    + intros k ref Hk. apply Hcl. by apply elem_of_map_to_list.
    + intros ref c Hc Hclosed. rewrite Hkeep; [done|].
      intros k Hin. apply elem_of_map_to_list in Hin.
      destruct (wf_open s Hwf k ref Hin) as (c' & Hc' & Hopen). congruence.
Qed.

(** [StopScriptHTTPServer] on a running server whose [Close] succeeds. *)
Lemma StopScriptHTTPServer_spec s :
  wf s → httpServer s = true →
  ∃ s', StopScriptHTTPServer None s = Some (None, s') ∧ wf s' ∧
    requestCounter s' = requestCounter s ∧
    scriptResults s' = ∅ ∧ httpServer s' = false ∧
    (∀ k ref, scriptResults s !! k = Some ref →
       ∃ c, chans s !! ref = Some c ∧ chans s' !! ref = Some (closed_copy c)) ∧
    (∀ ref c, chans s !! ref = Some c → chan_closed c = true →
       chans s' !! ref = Some c).
Proof.
  intros Hwf Hsrv.
  destruct (close_where_spec (λ _, true) (map_to_list (scriptResults s))
              (set_cleanup false false s))
    as (s' & Hrun & Hwf' & Hcnt & Hreg & Hcl & Hkeep).
  - by apply (wf_ext s).
  - apply NoDup_fst_map_to_list.
  - intros k ref H. by apply elem_of_map_to_list.
  - exists (set_httpServer false s'). split_and!.
    + unfold StopScriptHTTPServer. rewrite Hsrv. simpl.
      unfold close_where in Hrun. simpl in Hrun. by rewrite Hrun.
    + by apply (wf_ext s').
    + done.
    + apply map_eq. intros k. simpl. rewrite Hreg, lookup_empty. simpl.
      case_bool_decide as Hin; [done|].
      apply eq_None_not_Some. intros [ref Hk]. apply Hin.
      apply list_elem_of_fmap. exists (k, ref). split; [done|].
      by apply elem_of_map_to_list.
    + done.
    + intros k ref Hk. apply (Hcl k ref); [|done]. by apply elem_of_map_to_list.
    + intros ref c Hc Hclosed. simpl. rewrite Hkeep; [done|].
      intros k Hin. apply elem_of_map_to_list in Hin.
      destruct (wf_open s Hwf k ref Hin) as (c' & Hc' & Hopen). congruence.
Qed.

End Loops.

(** ** Every step keeps the state well formed *)

(** Case analysis on a step, with the names the proofs below use. *)
Ltac step_cases Hstep :=
  destruct Hstep as
    [lookup err s s' H|lookup err s s' H|err s s' H|closeErr err s s' H
    |b s|now r res s s' Hnow H|w rid ch cs w' s s' H|rid result s s' H
    |now n s s' Htick Hnow H].

Section Steps.

Lemma chan_try_recv_Some c v c' :
  chan_try_recv c = Some (v, c') →
  chan_closed c' = chan_closed c ∧
  (length (chan_buf c') <= length (chan_buf c))%nat ∧
  v = hd zero_result (chan_buf c).
Proof.
  unfold chan_try_recv. destruct (chan_buf c) as [|v0 rest] eqn:Hbuf.
  - destruct (chan_closed c) eqn:Hcl; [|done].
    intros [= <- <-]. by rewrite Hbuf.
  - intros [= <- <-]. simpl. split_and!; [done|lia|done].
Qed.

Lemma chan_try_send_Sent v c c' :
  chan_try_send v c = Sent c' →
  chan_closed c = false ∧ chan_buf c = [] ∧
  c' = {| chan_buf := [v]; chan_closed := false |}.
Proof.
  unfold chan_try_send, chan_cap. destruct (chan_closed c); [done|].
  destruct (chan_buf c) as [|v0 rest]; simpl; [|done].
  by intros [= <-].
Qed.

Lemma handle_begin_cases now r s :
  (∃ w, route r s = inl w ∧ handle_begin now r s = (Returned w, s)) ∨
  (∃ w script content requestID s2,
     route r s = inr (w, script, content) ∧
     requestID = requestID_of now (wrap64 (requestCounter s + 1)) ∧
     s2 = (registerSlot requestID (mintRequestID now s).2).2 ∧
     ((globalScriptEventCallback s = true ∧
       handle_begin now r s
       = (Waiting w requestID (length (chans s)),
          set_events (events s2 ++
            [{| ev_name := "script.http.execute"; ev_requestID := requestID;
                ev_scriptID := ID script; ev_content := content |}]) s2)) ∨
      (globalScriptEventCallback s = false ∧
       handle_begin now r s
       = (Unavailable (http_Error w "脚本执行器未初始化" StatusInternalServerError)
            requestID, s2)))).
Proof.
  unfold handle_begin. destruct (route r s) as [w|[[w script] content]].
  - left. eauto.
  - right. exists w, script, content. eexists _, _.
    split_and!; [done..|]. simpl.
    destruct (globalScriptEventCallback s); [left|right]; done.
Qed.

Lemma wf_register now s :
  clock now → wf s →
  wf (registerSlot (mintRequestID now s).1 (mintRequestID now s).2).2.
Proof.
  intros Hnow [H1 H2 H3 H4]. simpl.
  set (rid := requestID_of now _).
  assert (∀ k ref, scriptResults s !! k = Some ref →
            (ref < length (chans s))%nat) as Hlt.
  { intros k ref H. destruct (H2 k ref H) as (ch & Hch & _).
    eauto using lookup_lt_Some. }
  split.
  - intros k ref H. simpl in H.
    apply lookup_insert_Some in H as [[<- <-]|[_ H]]; [|eauto].
    exists now, (wrap64 (requestCounter s + 1)). split_and!; [done..|].
    unfold int64, wrap64, INT64_MIN, INT64_MAX.
    pose proof (Z.mod_pos_bound (requestCounter s + 1 + 2 ^ 63) (2 ^ 64)). lia.
  - intros k ref H. simpl in *.
    apply lookup_insert_Some in H as [[<- <-]|[_ H]].
    + exists make_chan. split; [|done].
      by rewrite lookup_app_r, Nat.sub_diag by done.
    + destruct (H2 k ref H) as (ch & Hch & Hopen). exists ch.
      split; [|done]. rewrite lookup_app_l; eauto.
  - intros k1 k2 ref Ha Hb. simpl in Ha, Hb.
    apply lookup_insert_Some in Ha as [[<- <-]|[Hn1 Ha]];
      apply lookup_insert_Some in Hb as [[<- Hb]|[Hn2 Hb]]; try done.
    + apply Hlt in Hb. lia.
    + apply Hlt in Ha. lia.
    + eauto.
  - intros ref ch H. simpl in H.
    apply lookup_app_Some in H as [H|[_ H]]; [eauto|].
    destruct (ref - length (chans s))%nat; simpl in H; [|done].
    injection H as <-. simpl. unfold chan_cap. lia.
Qed.

Lemma handle_begin_wf now r res s s' :
  clock now → wf s → handle_begin now r s = (res, s') → wf s'.
Proof.
  intros Hnow Hwf H.
  destruct (handle_begin_cases now r s)
    as [(w & _ & Heq)|(w & script & content & rid & s2 & _ & -> & -> & [[_ Heq]|[_ Heq]])];
    rewrite Heq in H; injection H as <- <-.
  - done.
  - eapply wf_ext; [| |by apply (wf_register now s)]; done.
  - by apply (wf_register now s).
Qed.

Lemma handle_select_wf w requestID resultChan c w' s s' :
  wf s → handle_select w requestID resultChan c s = Some (w', s') → wf s'.
Proof.
  intros Hwf H. destruct c; simpl in H.
  - destruct (chans s !! resultChan) as [ch|] eqn:Hch; [|done]. simpl in H.
    destruct (chan_try_recv ch) as [[v ch']|] eqn:Hrecv; [|done]. simpl in H.
    injection H as <- <-.
    apply chan_try_recv_Some in Hrecv as (Hcl & Hlen & _).
    apply wf_delete, (wf_update _ ch); [done..|].
    pose proof (wf_cap s Hwf _ _ Hch). lia.
  - injection H as <- <-. by apply wf_delete.
Qed.

Lemma SetScriptHTTPResult_wf requestID result s s' :
  wf s → SetScriptHTTPResult requestID result s = Some (tt, s') → wf s'.
Proof.
  intros Hwf H. unfold SetScriptHTTPResult in H.
  destruct (scriptResults s !! requestID) as [ref|]; [|by simplify_eq].
  destruct (chans s !! ref) as [ch|] eqn:Hch; [|done]. simpl in H.
  destruct (chan_try_send result ch) as [ch'| |] eqn:Hsend; [|by simplify_eq|done].
  injection H as <-.
  apply chan_try_send_Sent in Hsend as (Hcl & Hbuf & ->).
  apply (wf_update _ ch); [done..|by rewrite Hcl|]. simpl. unfold chan_cap. lia.
Qed.

(** The steps that leave the registry, the channels and the counter as
    they are. *)
Lemma Enable_core lookup err s s' :
  EnableScriptHTTPService lookup s = Some (err, s') →
  scriptResults s' = scriptResults s ∧ chans s' = chans s ∧
  requestCounter s' = requestCounter s.
Proof.
  unfold EnableScriptHTTPService, StartScriptHTTPServer.
  destruct lookup as [e|script]; [by intros [= <- <-]|].
  destruct (GetScriptIdentifier script); [|done]. simpl.
  destruct (httpServer s); simpl; by intros [= <- <-].
Qed.

Lemma Disable_core lookup err s s' :
  DisableScriptHTTPService lookup s = Some (err, s') →
  scriptResults s' = scriptResults s ∧ chans s' = chans s ∧
  requestCounter s' = requestCounter s.
Proof.
  unfold DisableScriptHTTPService.
  destruct lookup as [e|script]; [by intros [= <- <-]|].
  destruct (GetScriptIdentifier script); [|done]. simpl.
  by intros [= <- <-].
Qed.

Lemma Start_core err s s' :
  StartScriptHTTPServer s = (err, s') →
  scriptResults s' = scriptResults s ∧ chans s' = chans s ∧
  requestCounter s' = requestCounter s.
Proof.
  unfold StartScriptHTTPServer. destruct (httpServer s); by intros [= <- <-].
Qed.

Lemma StopScriptHTTPServer_wf closeErr err s s' :
  wf s → StopScriptHTTPServer closeErr s = Some (err, s') →
  wf s' ∧ requestCounter s' = requestCounter s ∧
  (∀ k, is_Some (scriptResults s' !! k) → is_Some (scriptResults s !! k)).
Proof.
  intros Hwf H. destruct (httpServer s) eqn:Hsrv.
  - destruct closeErr as [e|].
    + unfold StopScriptHTTPServer in H. rewrite Hsrv in H. simpl in H.
      injection H as <- <-. split_and!; [by apply (wf_ext s)|done..].
    + destruct (StopScriptHTTPServer_spec s Hwf Hsrv)
        as (s1 & Heq & Hwf1 & Hcnt & Hempty & _).
      rewrite Heq in H. injection H as <- <-. split_and!; [done..|].
      intros k [ref Hk]. by rewrite Hempty, lookup_empty in Hk.
  - unfold StopScriptHTTPServer in H. rewrite Hsrv in H. simpl in H.
    by injection H as <- <-.
Qed.

Lemma step_wf s l s' : wf s → step s l s' → wf s'.
Proof.
  intros Hwf Hstep. step_cases Hstep.
  - apply Enable_core in H as (? & ? & _). by apply (wf_ext s).
  - apply Disable_core in H as (? & ? & _). by apply (wf_ext s).
  - apply Start_core in H as (? & ? & _). by apply (wf_ext s).
  - by apply (StopScriptHTTPServer_wf _ _ _ _ Hwf) in H as [? _].
  - by apply (wf_ext s).
  - by eapply handle_begin_wf.
  - by eapply handle_select_wf.
  - by eapply SetScriptHTTPResult_wf.
  - destruct (cleanupExpiredResults_spec now s Hwf) as (n' & s'' & Heq & ? & _).
    congruence.
Qed.

(** Every reachable state is well formed. *)
Lemma run_wf ls s : run ls s → wf s.
Proof.
  induction 1 as [|ls s l s' _ IH _ Hstep]; [apply wf_init|].
  by apply (step_wf s l).
Qed.

End Steps.

(** ** The script identifier *)

Section Identifier.

Lemma substring_length s : ∀ n m,
  (n + m <= String.length s)%nat → String.length (substring n m s) = m.
Proof.
  induction s as [|a s IH]; intros [|n] [|m] H; simpl in *; try done; try lia.
  - f_equal. apply IH. lia.
  - apply IH. lia.
  - apply IH. lia.
Qed.

(** C9. [GetScriptIdentifier] returns on every script and takes no slice
    out of range: it yields [PluginID] when that is not empty, else the
    eight bytes [ID[6:14]] when [len(ID) >= 15], else [ID[6:]] when
    [len(ID) > 6], else [ID]; the length of the result is as the guards
    promise. *)
Theorem GetScriptIdentifier_total (script : UserScript) :
  let n := String.length (ID script) in
  let ident :=
    if negb (String.eqb (PluginID script) "") then PluginID script
    else if (15 <=? n)%nat then substring 6 8 (ID script)
    else if (6 <? n)%nat then substring 6 (n - 6) (ID script)
    else ID script in
  GetScriptIdentifier script = Some ident ∧
  String.length ident =
    (if negb (String.eqb (PluginID script) "") then String.length (PluginID script)
     else if (15 <=? n)%nat then 8
     else if (6 <? n)%nat then n - 6
     else n)%nat.
Proof.
  intros n ident. subst ident. unfold GetScriptIdentifier.
  fold n. destruct (negb (String.eqb (PluginID script) "")); [done|].
  destruct (15 <=? n)%nat eqn:H15.
  - apply Nat.leb_le in H15. unfold GoStrings.slice. fold n.
    replace (14 <=? n)%nat with true by (symmetry; apply Nat.leb_le; lia).
    split; [done|]. apply substring_length. fold n. lia.
  - destruct (6 <? n)%nat eqn:H6; [|done].
    apply Nat.ltb_lt in H6.
    unfold GoStrings.slice_from, GoStrings.slice. fold n.
    replace (6 <=? n)%nat with true by (symmetry; apply Nat.leb_le; lia).
    rewrite Nat.leb_refl. split; [done|].
    apply substring_length. fold n. lia.
Qed.

End Identifier.

(** ** The handler and the result sink *)

Section Handler.

Lemma route_writer r s w script content :
  route r s = inr (w, script, content) → w = cors_writer.
Proof.
  unfold route. repeat case_match; try done. by intros [= <- _ _].
Qed.

Lemma Status_http_Error w msg code :
  Status w = 0%nat → Status (http_Error w msg code) = code.
Proof. intros H. simpl. by rewrite H. Qed.

Lemma Status_write_result result w :
  Status w = 0%nat → Status (write_result result w) = StatusOK.
Proof.
  intros H. unfold write_result. destruct (negb _); simpl; by rewrite H.
Qed.

(** Both cases of the [select] delete the request id before the handler
    returns. *)
Lemma handle_select_removes w requestID resultChan c s w' s' :
  handle_select w requestID resultChan c s = Some (w', s') →
  scriptResults s' !! requestID = None.
Proof.
  intros H. destruct c; simpl in H.
  - destruct (chans s !! resultChan) as [ch|]; [|done]. simpl in H.
    destruct (chan_try_recv ch) as [[v ch']|]; [|done]. simpl in H.
    injection H as _ <-. simpl. apply lookup_delete_eq.
  - injection H as _ <-. simpl. apply lookup_delete_eq.
Qed.

(** C1. When no callback is set the handler answers 500 and returns with
    the request id it just registered still in [scriptResults]: the
    return of line 327 skips the [delete] that the two cases of the
    [select] perform. *)
Theorem unavailable_leaves_token now r s w script content :
  route r s = inr (w, script, content) →
  globalScriptEventCallback s = false →
  ∃ w' requestID s',
    handle_begin now r s = (Unavailable w' requestID, s') ∧
    Status w' = StatusInternalServerError ∧
    scriptResults s' !! requestID = Some (length (chans s)).
Proof.
  intros Hroute Hcb.
  destruct (handle_begin_cases now r s)
    as [(w0 & Hr & _)|(w0 & sc & ct & rid & s2 & Hr & -> & -> & [[Hc _]|[_ Heq]])];
    [congruence..|].
  eexists _, _, _. split; [exact Heq|]. split.
  - apply Status_http_Error. by rewrite (route_writer _ _ _ _ _ Hr).
  - simpl. apply lookup_insert_eq.
Qed.

Lemma unavailable_leaves_token_witness :
  route demo_post demo_enabled = inr (cors_writer, demo_script, "hello") ∧
  globalScriptEventCallback demo_enabled = false ∧
  ∃ w' requestID s',
    handle_begin 1700000000 demo_post demo_enabled
    = (Unavailable w' requestID, s') ∧
    Status w' = StatusInternalServerError ∧
    scriptResults s' !! requestID = Some (length (chans demo_enabled)).
Proof.
  split; [reflexivity|]. split; [reflexivity|].
  apply (unavailable_leaves_token 1700000000 demo_post demo_enabled
           cors_writer demo_script "hello"); reflexivity.
Defined.

(** C2. On a registered request id whose slot is fresh, a second
    [SetScriptHTTPResult] changes nothing: the slot holds the first
    result alone, and the handler's receive gets that one. *)
Theorem first_result_wins s requestID resultChan o1 o2 w :
  scriptResults s !! requestID = Some resultChan →
  chans s !! resultChan = Some make_chan →
  ∃ s1 s2,
    SetScriptHTTPResult requestID o1 s = Some (tt, s1) ∧
    SetScriptHTTPResult requestID o2 s1 = Some (tt, s1) ∧
    chans s1 !! resultChan = Some {| chan_buf := [o1]; chan_closed := false |} ∧
    handle_select w requestID resultChan CaseResult s1
    = Some (write_result o1 w, s2) ∧
    chans s2 !! resultChan = Some make_chan ∧
    scriptResults s2 !! requestID = None.
Proof.
  intros Hreg Hch.
  assert (resultChan < length (chans s))%nat as Hlt by eauto using lookup_lt_Some.
  eexists _, _. split_and!.
  - unfold SetScriptHTTPResult. rewrite Hreg, Hch. reflexivity.
  - unfold SetScriptHTTPResult. simpl. rewrite Hreg.
    rewrite list_lookup_insert_eq by done. reflexivity.
  - simpl. by rewrite list_lookup_insert_eq.
  - unfold handle_select. simpl.
    rewrite list_lookup_insert_eq by done. reflexivity.
  - simpl. rewrite list_lookup_insert_eq; [done|].
    by rewrite length_insert.
  - simpl. apply lookup_delete_eq.
Qed.

Lemma first_result_wins_witness :
  scriptResults demo_waiting !! "req_1700000000_1" = Some 0%nat ∧
  chans demo_waiting !! 0%nat = Some make_chan ∧
  ∃ s1 s2,
    SetScriptHTTPResult "req_1700000000_1" demo_both demo_waiting = Some (tt, s1) ∧
    SetScriptHTTPResult "req_1700000000_1" zero_result s1 = Some (tt, s1) ∧
    chans s1 !! 0%nat = Some {| chan_buf := [demo_both]; chan_closed := false |} ∧
    handle_select cors_writer "req_1700000000_1" 0 CaseResult s1
    = Some (write_result demo_both cors_writer, s2) ∧
    chans s2 !! 0%nat = Some make_chan ∧
    scriptResults s2 !! "req_1700000000_1" = None.
Proof.
  split; [reflexivity|]. split; [reflexivity|].
  apply (first_result_wins demo_waiting "req_1700000000_1" 0
           demo_both zero_result cors_writer); reflexivity.
Defined.

End Handler.

(** ** Reachable states *)

Section Runs.

Lemma demo_run : run demo_history demo_waiting.
Proof.
  apply (run_step _ demo_ready); [|exact I|].
  - apply (run_step _ demo_enabled); [|exact I|apply step_callback].
    apply (run_step _ init_state); [apply run_init|exact I|].
    apply step_enable. reflexivity.
  - apply step_request; [|reflexivity].
    unfold clock, INT64_MAX. lia.
Defined.

Lemma demo_run2 : run demo_history2 demo_waiting2.
Proof.
  apply (run_step _ demo_waiting); [apply demo_run|exact I|].
  apply step_request; [|reflexivity].
  unfold clock, INT64_MAX. lia.
Defined.

Lemma demo_blocked : blocked demo_history cors_writer "req_1700000000_1" 0.
Proof.
  split.
  - exists 1700000000, demo_get. left.
  - intros c w' H. unfold demo_history in H.
    repeat (apply elem_of_cons in H as [H|H]; [discriminate H|]).
    by apply elem_of_nil in H.
Defined.

(** The timestamp in a request id is the clock reading at which the
    handler made it. *)
Lemma run_minted_timestamp ls s now r res k :
  run ls s → LRequest now r res ∈ ls → k ∈ minted_by (LRequest now r res) →
  token_timestamp k = Some now.
Proof.
  induction 1 as [|ls s l s' _ IH _ Hstep]; intros Hin Hk.
  - by apply elem_of_nil in Hin.
  - apply elem_of_cons in Hin as [<-|Hin]; [|by apply IH].
    inversion Hstep as [| | | | |now' r' res' s0 s0' Hnow Hb| | |]; subst.
    destruct (handle_begin_cases now r s)
      as [(w & _ & Heq)|(w & sc & ct & rid & s2 & _ & -> & _ & [[_ Heq]|[_ Heq]])];
      rewrite Heq in Hb; injection Hb as <- _; simpl in Hk.
    + by apply elem_of_nil in Hk.
    + apply list_elem_of_singleton in Hk as ->.
      by apply token_timestamp_requestID_of, clock_int64.
    + apply list_elem_of_singleton in Hk as ->.
      by apply token_timestamp_requestID_of, clock_int64.
Qed.

(** C3. One tick of the sweeper, in any reachable state and at any clock
    reading: the timestamp of a request id is the second at which it was
    made, and it reads back from every registered id; the entries left are
    those of the ids whose timestamp is at most 60 seconds before [now],
    unchanged; the channel of each entry removed is closed; and an id that
    a handler is still blocked on is removed like any other. *)
Theorem sweep_removes_exactly_the_old ls s now :
  run ls s → clock now →
  ∃ n s',
    cleanupExpiredResults now s = Some (n, s') ∧
    (∀ now0 r res k, LRequest now0 r res ∈ ls →
       k ∈ minted_by (LRequest now0 r res) → token_timestamp k = Some now0) ∧
    (∀ k ref, scriptResults s !! k = Some ref → is_Some (token_timestamp k)) ∧
    (∀ k, scriptResults s' !! k
          = if older_than_60 now k then None else scriptResults s !! k) ∧
    (∀ k ref, scriptResults s !! k = Some ref → older_than_60 now k = true →
       ∃ c, chans s !! ref = Some c ∧ chans s' !! ref = Some (closed_copy c)) ∧
    (∀ w k ref, blocked ls w k ref → scriptResults s !! k = Some ref →
       older_than_60 now k = true → scriptResults s' !! k = None).
Proof.
  intros Hrun Hnow. pose proof (run_wf ls s Hrun) as Hwf.
  destruct (cleanupExpiredResults_spec now s Hwf)
    as (n & s' & Heq & _ & _ & Hreg & Hcl & _).
  assert (∀ k ref, scriptResults s !! k = Some ref →
            expired now k = older_than_60 now k ∧ is_Some (token_timestamp k))
    as Hsame.
  { intros k ref Hk.
    destruct (wf_keys s Hwf k ref Hk) as (ts & c & -> & Hts & _).
    rewrite expired_requestID_of, older_than_60_requestID_of by done.
    split; [done|].
    rewrite token_timestamp_requestID_of by by apply clock_int64. eauto. }
  assert (∀ k, scriptResults s' !! k
               = if older_than_60 now k then None else scriptResults s !! k)
    as Hreg'.
  { intros k. rewrite Hreg.
    destruct (scriptResults s !! k) as [ref|] eqn:Hk.
    - by destruct (Hsame k ref Hk) as [-> _].
    - by destruct (expired now k), (older_than_60 now k). }
  exists n, s'. split_and!; [done| | |done| |].
  - intros now0 r res k. by apply (run_minted_timestamp ls s).
  - intros k ref Hk. by destruct (Hsame k ref Hk).
  - intros k ref Hk Hold. apply (Hcl k ref Hk).
    by destruct (Hsame k ref Hk) as [-> _].
  - intros w k ref _ _ Hold. by rewrite Hreg', Hold.
Qed.

Lemma sweep_removes_exactly_the_old_witness :
  run demo_history demo_waiting ∧ clock 1700000061 ∧
  ∃ n s',
    cleanupExpiredResults 1700000061 demo_waiting = Some (n, s') ∧
    (∀ now0 r res k, LRequest now0 r res ∈ demo_history →
       k ∈ minted_by (LRequest now0 r res) → token_timestamp k = Some now0) ∧
    (∀ k ref, scriptResults demo_waiting !! k = Some ref →
       is_Some (token_timestamp k)) ∧
    (∀ k, scriptResults s' !! k
          = if older_than_60 1700000061 k then None
            else scriptResults demo_waiting !! k) ∧
    (∀ k ref, scriptResults demo_waiting !! k = Some ref →
       older_than_60 1700000061 k = true →
       ∃ c, chans demo_waiting !! ref = Some c ∧
            chans s' !! ref = Some (closed_copy c)) ∧
    (∀ w k ref, blocked demo_history w k ref →
       scriptResults demo_waiting !! k = Some ref →
       older_than_60 1700000061 k = true → scriptResults s' !! k = None).
Proof.
  assert (clock 1700000061) as Hnow by (unfold clock, INT64_MAX; lia).
  split; [apply demo_run|]. split; [exact Hnow|].
  apply (sweep_removes_exactly_the_old demo_history demo_waiting 1700000061
           demo_run Hnow).
Defined.

(** What a step does to the counter and to the keys of the registry. *)
Lemma step_minted s l s' :
  wf s → step s l s' →
  (minted_by l = [] ∧ requestCounter s' = requestCounter s ∧
   ∀ k, is_Some (scriptResults s' !! k) → is_Some (scriptResults s !! k)) ∨
  (∃ now, clock now ∧
     minted_by l = [requestID_of now (wrap64 (requestCounter s + 1))] ∧
     requestCounter s' = wrap64 (requestCounter s + 1) ∧
     ∀ k, is_Some (scriptResults s' !! k) →
          k = requestID_of now (wrap64 (requestCounter s + 1)) ∨
          is_Some (scriptResults s !! k)).
Proof.
  intros Hwf Hstep. step_cases Hstep.
  - left. apply Enable_core in H as (-> & _ & ->). done.
  - left. apply Disable_core in H as (-> & _ & ->). done.
  - left. apply Start_core in H as (-> & _ & ->). done.
  - left. apply (StopScriptHTTPServer_wf _ _ _ _ Hwf) in H as (_ & ? & ?). done.
  - left. done.
  - destruct (handle_begin_cases now r s)
      as [(w & _ & Heq)|(w & script & content & rid & s2 & _ & -> & -> & [[_ Heq]|[_ Heq]])];
      rewrite Heq in H; injection H as <- <-.
    + left. done.
    + right. exists now. split_and!; [done..|].
      intros k [ref Hk]. simpl in Hk.
      apply lookup_insert_Some in Hk as [[<- _]|[_ Hk]]; eauto.
    + right. exists now. split_and!; [done..|].
      intros k [ref Hk]. simpl in Hk.
      apply lookup_insert_Some in Hk as [[<- _]|[_ Hk]]; eauto.
  - left. split; [done|]. destruct cs; simpl in H.
    + destruct (chans s !! ch) as [c0|]; [|done]. simpl in H.
      destruct (chan_try_recv c0) as [[v c1]|]; [|done]. simpl in H.
      injection H as <- <-. split; [done|].
      intros k [ref Hk]. simpl in Hk.
      apply lookup_delete_Some in Hk as [_ Hk]. eauto.
    + injection H as <- <-. split; [done|].
      intros k [ref Hk]. simpl in Hk.
      apply lookup_delete_Some in Hk as [_ Hk]. eauto.
  - left. split; [done|]. unfold SetScriptHTTPResult in H.
    destruct (scriptResults s !! rid) as [ref|]; [|by simplify_eq].
    destruct (chans s !! ref) as [c0|]; [|done]. simpl in H.
    destruct (chan_try_send result c0); [|by simplify_eq|done].
    by injection H as <-.
  - left. split; [done|].
    destruct (cleanupExpiredResults_spec now s Hwf)
      as (n' & s'' & Heq & _ & Hcnt & Hreg & _).
    rewrite Heq in H. injection H as <- <-. split; [done|].
    intros k [ref Hk]. rewrite Hreg in Hk.
    destruct (expired now k); [done|eauto].
Qed.

Lemma minted_cons l ls : minted (l :: ls) = (minted_by l ++ minted ls)%list.
Proof. reflexivity. Qed.

(** The [n]-th request id made carries the counter [n], as long as the
    counter has not wrapped. *)
Lemma run_minted ls s :
  run ls s → Z.of_nat (length (minted ls)) <= INT64_MAX →
  requestCounter s = Z.of_nat (length (minted ls)) ∧
  token_counter <$> reverse (minted ls)
  = Some <$> seqZ 1 (Z.of_nat (length (minted ls))) ∧
  (∀ k, is_Some (scriptResults s !! k) → k ∈ minted ls).
Proof.
  induction 1 as [|ls s l s' Hrun IH _ Hstep]; intros Hlen.
  - split_and!; [done..|]. intros k [ref Hk]. simpl in Hk.
    by rewrite lookup_empty in Hk.
  - rewrite minted_cons in *. rewrite length_app in Hlen.
    destruct IH as (Hcnt & Hctr & Hkeys); [lia|].
    destruct (step_minted s l s' (run_wf ls s Hrun) Hstep)
      as [(Hm & Hc & Hk)|(now & Hnow & Hm & Hc & Hk)]; rewrite Hm in *.
    + simpl. split_and!; [congruence|done|]. intros k Hin. eauto.
    + assert (Z.of_nat (length (minted ls)) + 1 <= INT64_MAX) as Hlen'
        by (simpl length in Hlen; lia).
      assert (0 <= Z.of_nat (length (minted ls))) as Hpos by lia.
      assert (int64 (Z.of_nat (length (minted ls)) + 1)) as Hin
        by (unfold int64, INT64_MIN, INT64_MAX in *; lia).
      rewrite Hcnt, wrap64_id in Hc, Hk |- * by done.
      replace (length ([requestID_of now (Z.of_nat (length (minted ls)) + 1)]
                       ++ minted ls))
        with (S (length (minted ls))) by done.
      split_and!.
      * lia.
      * change ([?x] ++ ?m)%list with (x :: m).
        rewrite reverse_cons, fmap_app, Hctr, seqZ_S, fmap_app. simpl. f_equal.
        rewrite token_counter_requestID_of by done. do 2 f_equal. lia.
      * intros k Hin'. destruct (Hk k Hin') as [->|Hin'']; [left|right; eauto].
Qed.

Lemma run_minted_NoDup ls s :
  run ls s → Z.of_nat (length (minted ls)) <= INT64_MAX → NoDup (minted ls).
Proof.
  intros Hrun Hlen.
  destruct (run_minted ls s Hrun Hlen) as (_ & Hctr & _).
  rewrite <- reverse_Permutation.
  apply (NoDup_fmap_1 token_counter). rewrite Hctr.
  apply NoDup_fmap_2; [apply _|apply NoDup_seqZ].
Qed.

(** C4. Along any run in which the counter has not wrapped (fewer than
    2^63 registrations), the request ids made are pairwise different,
    also within one clock second: the [n]-th one carries the counter
    [n]; and every key of [scriptResults] is one of them. *)
Theorem request_ids_distinct ls s :
  run ls s → Z.of_nat (length (minted ls)) <= INT64_MAX →
  NoDup (minted ls) ∧
  token_counter <$> reverse (minted ls)
  = Some <$> seqZ 1 (Z.of_nat (length (minted ls))) ∧
  (∀ k, is_Some (scriptResults s !! k) → k ∈ minted ls).
Proof.
  intros Hrun Hlen.
  destruct (run_minted ls s Hrun Hlen) as (_ & Hctr & Hkeys).
  split_and!; [|done..]. by apply (run_minted_NoDup ls s).
Qed.

Lemma request_ids_distinct_witness :
  run demo_history2 demo_waiting2 ∧
  Z.of_nat (length (minted demo_history2)) <= INT64_MAX ∧
  NoDup (minted demo_history2) ∧
  token_counter <$> reverse (minted demo_history2)
  = Some <$> seqZ 1 (Z.of_nat (length (minted demo_history2))) ∧
  (∀ k, is_Some (scriptResults demo_waiting2 !! k) → k ∈ minted demo_history2).
Proof.
  assert (Z.of_nat (length (minted demo_history2)) <= INT64_MAX) as Hlen
    by (vm_compute; discriminate).
  split; [apply demo_run2|]. split; [exact Hlen|].
  apply (request_ids_distinct demo_history2 demo_waiting2 demo_run2 Hlen).
Defined.

(** The writer of a waiting handler carries the CORS headers only. *)
Lemma run_waiting_writer ls s now r w requestID resultChan :
  run ls s → LRequest now r (Waiting w requestID resultChan) ∈ ls →
  w = cors_writer.
Proof.
  induction 1 as [|ls s l s' _ IH _ Hstep]; intros Hin.
  - by apply elem_of_nil in Hin.
  - apply elem_of_cons in Hin as [<-|Hin]; [|by apply IH].
    inversion Hstep as [| | | | |now' r' res s0 s0' _ Hb| | |]; subst.
    destruct (handle_begin_cases now r s)
      as [(w0 & _ & Heq)|(w0 & sc & ct & rid & s2 & Hr & _ & _ & [[_ Heq]|[_ Heq]])];
      rewrite Heq in Hb; try done.
    injection Hb as -> _ _ _. by apply route_writer in Hr.
Qed.

(** ** Blocked handlers stay reachable *)

Lemma waiting_minted ls now r w requestID resultChan :
  LRequest now r (Waiting w requestID resultChan) ∈ ls → requestID ∈ minted ls.
Proof.
  induction ls as [|l ls IH]; intros H; [by apply elem_of_nil in H|].
  rewrite minted_cons. apply elem_of_app.
  apply elem_of_cons in H as [<-|H]; [left; simpl; left|right; auto].
Qed.

(** Two handlers never wait on the same request id. *)
Lemma waiting_unique ls n1 r1 w1 ch1 n2 r2 w2 ch2 requestID :
  NoDup (minted ls) →
  LRequest n1 r1 (Waiting w1 requestID ch1) ∈ ls →
  LRequest n2 r2 (Waiting w2 requestID ch2) ∈ ls →
  w1 = w2 ∧ ch1 = ch2.
Proof.
  induction ls as [|l ls IH]; intros Hnd H1 H2; [by apply elem_of_nil in H1|].
  rewrite minted_cons in Hnd. apply NoDup_app in Hnd as (_ & Hdisj & Hnd).
  apply elem_of_cons in H1 as [E1|H1]; apply elem_of_cons in H2 as [E2|H2].
  - rewrite <- E1 in E2. by injection E2 as _ _ -> ->.
  - destruct (Hdisj requestID); [subst l; simpl; left|].
    by apply waiting_minted in H2.
  - destruct (Hdisj requestID); [subst l; simpl; left|].
    by apply waiting_minted in H1.
  - by apply IH.
Qed.

(** A closed channel stays closed. *)
Lemma step_closed_stays s l s' ref c :
  wf s → step s l s' → chans s !! ref = Some c → chan_closed c = true →
  ∃ c', chans s' !! ref = Some c' ∧ chan_closed c' = true.
Proof.
  intros Hwf Hstep Hc Hclosed. step_cases Hstep.
  - apply Enable_core in H as (_ & -> & _). eauto.
  - apply Disable_core in H as (_ & -> & _). eauto.
  - apply Start_core in H as (_ & -> & _). eauto.
  - unfold StopScriptHTTPServer in H. destruct (httpServer s) eqn:Hsrv; simpl in H.
    + destruct closeErr as [e|].
      * injection H as <- <-. eauto.
      * destruct (StopScriptHTTPServer_spec s Hwf Hsrv)
          as (s1 & Heq & _ & _ & _ & _ & _ & Hkeep).
        unfold StopScriptHTTPServer in Heq. rewrite Hsrv in Heq. simpl in Heq.
        rewrite Heq in H. injection H as <- <-. eauto.
    + injection H as <- <-. eauto.
  - eauto.
  - destruct (handle_begin_cases now r s)
      as [(w & _ & Heq)|(w & script & content & rid & s2 & _ & -> & -> & [[_ Heq]|[_ Heq]])];
      rewrite Heq in H; injection H as <- <-; [eauto|..];
      exists c; simpl; (split; [|done]);
      rewrite lookup_app_l; eauto using lookup_lt_Some.
  - destruct cs; simpl in H.
    + destruct (chans s !! ch) as [c0|] eqn:Hc0; [|done]. simpl in H.
      destruct (chan_try_recv c0) as [[v c1]|] eqn:Hrecv; [|done]. simpl in H.
      injection H as <- <-. simpl.
      apply chan_try_recv_Some in Hrecv as (Hcl & _ & _).
      destruct (decide (ch = ref)) as [->|Hne].
      * exists c1. rewrite list_lookup_insert_eq by eauto using lookup_lt_Some.
        split; [done|]. congruence.
      * exists c. by rewrite list_lookup_insert_ne.
    + injection H as <- <-. eauto.
  - unfold SetScriptHTTPResult in H.
    destruct (scriptResults s !! rid) as [r0|]; [|injection H as <-; eauto].
    destruct (chans s !! r0) as [c0|] eqn:Hc0; [|done]. simpl in H.
    destruct (chan_try_send result c0) as [c1| |] eqn:Hsend;
      [|injection H as <-; eauto|done].
    injection H as <-. apply chan_try_send_Sent in Hsend as (Hopen & _ & _).
    exists c. simpl. rewrite list_lookup_insert_ne; [done|]. congruence.
  - destruct (cleanupExpiredResults_spec now s Hwf)
      as (n' & s'' & Heq & _ & _ & _ & _ & Hkeep).
    rewrite Heq in H. injection H as <- <-. eauto.
Qed.

(** A registered request id stays registered with its channel, unless the
    channel is closed, its handler leaves the [select], or the id is made
    again. *)
Lemma step_registered s l s' requestID resultChan :
  wf s → step s l s' → scriptResults s !! requestID = Some resultChan →
  scriptResults s' !! requestID = Some resultChan ∨
  (∃ c, chans s' !! resultChan = Some c ∧ chan_closed c = true) ∨
  (∃ w ch cs w', l = LSelect w requestID ch cs w') ∨
  requestID ∈ minted_by l.
Proof.
  intros Hwf Hstep Hreg. step_cases Hstep.
  - apply Enable_core in H as (-> & _ & _). eauto.
  - apply Disable_core in H as (-> & _ & _). eauto.
  - apply Start_core in H as (-> & _ & _). eauto.
  - unfold StopScriptHTTPServer in H. destruct (httpServer s) eqn:Hsrv; simpl in H.
    + destruct closeErr as [e|].
      * injection H as <- <-. eauto.
      * destruct (StopScriptHTTPServer_spec s Hwf Hsrv)
          as (s1 & Heq & _ & _ & _ & _ & Hcl & _).
        unfold StopScriptHTTPServer in Heq. rewrite Hsrv in Heq. simpl in Heq.
        rewrite Heq in H. injection H as <- <-.
        destruct (Hcl requestID resultChan Hreg) as (c & _ & Hc).
        right. left. eauto.
    + injection H as <- <-. eauto.
  - eauto.
  - destruct (handle_begin_cases now r s)
      as [(w & _ & Heq)|(w & script & content & rid & s2 & _ & -> & -> & [[_ Heq]|[_ Heq]])];
      rewrite Heq in H; injection H as <- <-; [eauto|..]; simpl;
      (destruct (decide (requestID_of now (wrap64 (requestCounter s + 1)) = requestID))
         as [<-|Hne]; [do 3 right; left|left; by rewrite lookup_insert_ne]).
  - destruct (decide (rid = requestID)) as [->|Hne]; [right; right; left; eauto|].
    left. destruct cs; simpl in H.
    + destruct (chans s !! ch) as [c0|]; [|done]. simpl in H.
      destruct (chan_try_recv c0) as [[v c1]|]; [|done]. simpl in H.
      injection H as <- <-. simpl. by rewrite lookup_delete_ne.
    + injection H as <- <-. simpl. by rewrite lookup_delete_ne.
  - left. unfold SetScriptHTTPResult in H.
    destruct (scriptResults s !! rid) as [r0|]; [|by injection H as <-].
    destruct (chans s !! r0) as [c0|]; [|done]. simpl in H.
    destruct (chan_try_send result c0); [|by injection H as <-|done].
    by injection H as <-.
  - destruct (cleanupExpiredResults_spec now s Hwf)
      as (n' & s'' & Heq & _ & _ & Hlook & Hcl & _).
    rewrite Heq in H. injection H as <- <-.
    destruct (expired now requestID) eqn:Hexp.
    + destruct (Hcl requestID resultChan Hreg Hexp) as (c & _ & Hc).
      right. left. eauto.
    + left. by rewrite Hlook, Hexp.
Qed.

(** In every run whose counter has not wrapped, each blocked handler is
    registered with its channel, or its channel has been closed. *)
Lemma run_blocked_live ls s :
  run ls s → Z.of_nat (length (minted ls)) <= INT64_MAX → blocked_live ls s.
Proof.
  induction 1 as [|ls s l s' Hrun IH Hen Hstep]; intros Hlen.
  - intros w rid ch [(now & r & Hin) _]. by apply elem_of_nil in Hin.
  - pose proof (run_minted_NoDup _ _ (run_step ls s l s' Hrun Hen Hstep) Hlen)
      as Hnd.
    pose proof (run_wf ls s Hrun) as Hwf.
    assert (Z.of_nat (length (minted ls)) <= INT64_MAX) as Hlen'.
    { rewrite minted_cons, length_app in Hlen. lia. }
    specialize (IH Hlen').
    intros w0 rid0 ch0 [(now0 & r0 & Hin) Hnosel].
    apply elem_of_cons in Hin as [Heq|Hin].
    + subst l. inversion Hstep as [| | | | |now' r' res s1 s1' _ Hb| | |]; subst.
      destruct (handle_begin_cases now0 r0 s)
        as [(w & _ & Heq)|(w & sc & ct & rid & s2 & _ & -> & -> & [[_ Heq]|[_ Heq]])];
        rewrite Heq in Hb; try done.
      injection Hb as -> -> -> <-. left. simpl. apply lookup_insert_eq.
    + assert (blocked ls w0 rid0 ch0) as Hb.
      { split; [eauto|]. intros c w' Hs. apply (Hnosel c w'). by right. }
      destruct (IH w0 rid0 ch0 Hb) as [Hreg|(c0 & Hc0 & Hclosed)].
      * destruct (step_registered s l s' rid0 ch0 Hwf Hstep Hreg)
          as [?|[?|[(w1 & ch1 & cs & w' & ->)|Hm]]]; [by left|by right|..].
        -- destruct Hen as [(now1 & r1 & Hin1) _].
           assert (NoDup (minted ls)) as Hnd'.
           { rewrite minted_cons in Hnd. by apply NoDup_app in Hnd as (_ & _ & ?). }
           destruct (waiting_unique ls now1 r1 w1 ch1 now0 r0 w0 ch0 rid0
                       Hnd' Hin1 Hin) as [-> ->].
           destruct (Hnosel cs w'). left.
        -- rewrite minted_cons in Hnd. apply NoDup_app in Hnd as (_ & Hdisj & _).
           destruct (Hdisj rid0 Hm). by apply waiting_minted in Hin.
      * right. by apply (step_closed_stays s l s' ch0 c0).
Qed.

End Runs.

(** ** The timeout *)

Section Timeout.

(** C5. A blocked handler whose slot is still empty and open cannot leave
    its [select] by the receive; when the 30-second timer fires it
    answers 408 in plain text, and its request id is gone from
    [scriptResults] when it returns. *)
Theorem timeout_replies_408 ls s w requestID resultChan :
  run ls s → blocked ls w requestID resultChan →
  chans s !! resultChan = Some make_chan →
  handle_select w requestID resultChan CaseResult s = None ∧
  ∃ w' s',
    handle_select w requestID resultChan CaseTimeout s = Some (w', s') ∧
    run (LSelect w requestID resultChan CaseTimeout w' :: ls) s' ∧
    Status w' = StatusRequestTimeout ∧
    Body w' = BodyText ("脚本执行超时" ++ newline) ∧
    Header w' !! "Content-Type" = Some "text/plain; charset=utf-8" ∧
    scriptResults s' !! requestID = None.
Proof.
  intros Hrun Hb Hch. split.
  - unfold handle_select. by rewrite Hch.
  - eexists _, _. split; [reflexivity|]. split_and!.
    + apply (run_step ls s); [done..|]. by apply step_select.
    + apply Status_http_Error. destruct Hb as [(now & r & Hin) _].
      by rewrite (run_waiting_writer ls s now r w _ _ Hrun Hin).
    + done.
    + simpl. rewrite lookup_insert_ne by done. apply lookup_insert_eq.
    + simpl. apply lookup_delete_eq.
Qed.

Lemma timeout_replies_408_witness :
  run demo_history demo_waiting ∧
  blocked demo_history cors_writer "req_1700000000_1" 0 ∧
  chans demo_waiting !! 0%nat = Some make_chan ∧
  handle_select cors_writer "req_1700000000_1" 0 CaseResult demo_waiting = None ∧
  ∃ w' s',
    handle_select cors_writer "req_1700000000_1" 0 CaseTimeout demo_waiting
    = Some (w', s') ∧
    run (LSelect cors_writer "req_1700000000_1" 0 CaseTimeout w' :: demo_history) s' ∧
    Status w' = StatusRequestTimeout ∧
    Body w' = BodyText ("脚本执行超时" ++ newline) ∧
    Header w' !! "Content-Type" = Some "text/plain; charset=utf-8" ∧
    scriptResults s' !! "req_1700000000_1" = None.
Proof.
  split; [apply demo_run|]. split; [apply demo_blocked|]. split; [reflexivity|].
  apply (timeout_replies_408 demo_history demo_waiting cors_writer
           "req_1700000000_1" 0 demo_run demo_blocked).
  reflexivity.
Defined.

End Timeout.

(** ** Stopping the server *)

Section Stop.

Lemma recv_closed c :
  chan_closed c = true →
  chan_try_recv c
  = Some (hd zero_result (chan_buf c),
          {| chan_buf := tail (chan_buf c); chan_closed := true |}).
Proof.
  intros H. unfold chan_try_recv. rewrite H.
  destruct c as [[|v rest] closed]; simpl in *; by subst.
Qed.

(** Stopping a running server lets the receive proceed on any channel that
    is registered or closed already. *)
Lemma stop_then_receive s w requestID resultChan :
  wf s → httpServer s = true →
  (scriptResults s !! requestID = Some resultChan ∨
   ∃ c, chans s !! resultChan = Some c ∧ chan_closed c = true) →
  ∃ s1 c s2,
    StopScriptHTTPServer None s = Some (None, s1) ∧
    scriptResults s1 = ∅ ∧
    (∀ k ref, scriptResults s !! k = Some ref →
       ∃ c', chans s !! ref = Some c' ∧ chans s1 !! ref = Some (closed_copy c')) ∧
    chans s !! resultChan = Some c ∧
    handle_select w requestID resultChan CaseResult s1
    = Some (write_result (hd zero_result (chan_buf c)) w, s2).
Proof.
  intros Hwf Hsrv Hlive.
  destruct (StopScriptHTTPServer_spec s Hwf Hsrv)
    as (s1 & Heq & _ & _ & Hempty & _ & Hcl & Hkeep).
  assert (∃ c c1, chans s !! resultChan = Some c ∧
            chans s1 !! resultChan = Some c1 ∧
            chan_buf c1 = chan_buf c ∧ chan_closed c1 = true)
    as (c & c1 & Hc & Hc1 & Hbuf & Hclosed).
  { destruct Hlive as [Hreg|(c & Hc & Hclosed)].
    - destruct (Hcl requestID resultChan Hreg) as (c & Hc & Hc1).
      by exists c, (closed_copy c).
    - exists c, c. split_and!; [done|by apply Hkeep|done..]. }
  exists s1, c. eexists. split_and!; [done..|].
  unfold handle_select. rewrite Hc1. simpl.
  rewrite (recv_closed c1 Hclosed), Hbuf. reflexivity.
Qed.

(** When [Close] fails the function returns at line 106: the sweeper is
    stopped, the registry and the channels are as they were. *)
Lemma stop_close_error s e :
  httpServer s = true →
  ∃ err s1,
    StopScriptHTTPServer (Some e) s = Some (Some err, s1) ∧
    scriptResults s1 = scriptResults s ∧ chans s1 = chans s ∧
    httpServer s1 = true ∧ cleanupTicker s1 = false.
Proof.
  intros H. unfold StopScriptHTTPServer. rewrite H. simpl.
  eexists _, _. by split_and!.
Qed.

(** C6, as amended.  When a running server is stopped and [Close]
    succeeds, [scriptResults] is emptied and every registered channel is
    closed; every handler blocked in its [select] can then leave it by the
    receive at once.  It answers with what its slot held, and for an empty
    slot with the zero result: status 200 and the JSON body
    {"returnValue": null}.  (The run is one whose counter has not
    wrapped.) *)
Theorem stop_wakes_blocked_handlers ls s w requestID resultChan :
  run ls s → Z.of_nat (length (minted ls)) <= INT64_MAX →
  httpServer s = true →
  blocked ls w requestID resultChan →
  ∃ s1 c s2,
    StopScriptHTTPServer None s = Some (None, s1) ∧
    scriptResults s1 = ∅ ∧
    (∀ k ref, scriptResults s !! k = Some ref →
       ∃ c', chans s !! ref = Some c' ∧ chans s1 !! ref = Some (closed_copy c')) ∧
    chans s !! resultChan = Some c ∧
    handle_select w requestID resultChan CaseResult s1
    = Some (write_result (hd zero_result (chan_buf c)) w, s2) ∧
    Status (write_result (hd zero_result (chan_buf c)) w) = StatusOK ∧
    Body (write_result (hd zero_result (chan_buf c)) w)
    = match chan_buf c with
      | [] => BodyJSON (JObject [("returnValue", JNull)])
      | result :: _ => Body (write_result result w)
      end.
Proof.
  intros Hrun Hlen Hsrv Hb.
  destruct (stop_then_receive s w requestID resultChan
              (run_wf ls s Hrun) Hsrv (run_blocked_live ls s Hrun Hlen _ _ _ Hb))
    as (s1 & c & s2 & Hstop & Hempty & Hcl & Hc & Hsel).
  destruct Hb as [(now & r & Hin) _].
  exists s1, c, s2. split_and!; [done..| |].
  - apply Status_write_result.
    by rewrite (run_waiting_writer ls s now r w _ _ Hrun Hin).
  - by destruct (chan_buf c).
Qed.

Lemma stop_wakes_blocked_handlers_witness :
  run demo_history demo_waiting ∧
  Z.of_nat (length (minted demo_history)) <= INT64_MAX ∧
  httpServer demo_waiting = true ∧
  blocked demo_history cors_writer "req_1700000000_1" 0 ∧
  ∃ s1 c s2,
    StopScriptHTTPServer None demo_waiting = Some (None, s1) ∧
    scriptResults s1 = ∅ ∧
    (∀ k ref, scriptResults demo_waiting !! k = Some ref →
       ∃ c', chans demo_waiting !! ref = Some c' ∧
             chans s1 !! ref = Some (closed_copy c')) ∧
    chans demo_waiting !! 0%nat = Some c ∧
    handle_select cors_writer "req_1700000000_1" 0 CaseResult s1
    = Some (write_result (hd zero_result (chan_buf c)) cors_writer, s2) ∧
    Status (write_result (hd zero_result (chan_buf c)) cors_writer) = StatusOK ∧
    Body (write_result (hd zero_result (chan_buf c)) cors_writer)
    = match chan_buf c with
      | [] => BodyJSON (JObject [("returnValue", JNull)])
      | result :: _ => Body (write_result result cors_writer)
      end.
Proof.
  assert (Z.of_nat (length (minted demo_history)) <= INT64_MAX) as Hlen
    by (vm_compute; discriminate).
  split; [apply demo_run|]. split; [exact Hlen|]. split; [reflexivity|].
  split; [apply demo_blocked|].
  apply (stop_wakes_blocked_handlers demo_history demo_waiting cors_writer
           "req_1700000000_1" 0 demo_run Hlen eq_refl demo_blocked).
Defined.

(** C6, as stated, fails: the handler that the stop wakes answers
    exactly as it answers a delivered result without error and without
    value, with status 200 and the body {"returnValue": null}. *)
Lemma stop_reply_is_a_result_reply :
  (∃ s1 s2,
     StopScriptHTTPServer None demo_waiting = Some (None, s1) ∧
     handle_select cors_writer "req_1700000000_1" 0 CaseResult s1
     = Some (write_result zero_result cors_writer, s2)) ∧
  Body (write_result zero_result cors_writer)
  = BodyJSON (JObject [("returnValue", JNull)]) ∧
  ¬ stop_reports_server_stopped.
Proof.
  destruct (stop_then_receive demo_waiting cors_writer "req_1700000000_1" 0
              (run_wf _ _ demo_run) eq_refl (or_introl eq_refl))
    as (s1 & c & s2 & Hstop & _ & _ & Hc & Hsel).
  assert (c = make_chan) as -> by (vm_compute in Hc; injection Hc as <-; reflexivity).
  split_and!.
  - exists s1, s2. split; [exact Hstop|exact Hsel].
  - reflexivity.
  - intros H.
    destruct (H demo_history demo_waiting cors_writer "req_1700000000_1" 0%nat s1
                demo_run demo_blocked eq_refl Hstop) as (w' & s2' & Hsel' & Hne).
    rewrite Hsel in Hsel'. injection Hsel' as <- _.
    by apply (Hne zero_result).
Qed.

End Stop.

(** ** The replies *)

Section Replies.

(** C7, as amended.  A delivered result without error is answered with
    the JSON object {"returnValue": v}, the member always there ([null]
    for no value); one with an error with {"error": message}; both with
    status 200.  The timeout is answered in plain text with status 408,
    a missing callback in plain text with status 500. *)
Theorem reply_by_outcome w requestID resultChan s c result rest
    now r s0 w0 script content :
  Status w = 0%nat →
  chans s !! resultChan = Some c → chan_buf c = result :: rest →
  route r s0 = inr (w0, script, content) →
  globalScriptEventCallback s0 = false →
  (∃ s', handle_select w requestID resultChan CaseResult s
         = Some (write_result result w, s') ∧
     Status (write_result result w) = StatusOK ∧
     Header (write_result result w) !! "Content-Type" = Some "application/json" ∧
     Body (write_result result w)
     = BodyJSON (JObject [if String.eqb (Error result) ""
                          then ("returnValue", ReturnValue result)
                          else ("error", JString (Error result))])) ∧
  (∃ w' s', handle_select w requestID resultChan CaseTimeout s = Some (w', s') ∧
     Status w' = StatusRequestTimeout ∧
     Header w' !! "Content-Type" = Some "text/plain; charset=utf-8" ∧
     Body w' = BodyText ("脚本执行超时" ++ newline)) ∧
  (∃ w' requestID' s', handle_begin now r s0 = (Unavailable w' requestID', s') ∧
     Status w' = StatusInternalServerError ∧
     Header w' !! "Content-Type" = Some "text/plain; charset=utf-8" ∧
     Body w' = BodyText ("脚本执行器未初始化" ++ newline)).
Proof.
  intros Hw Hc Hbuf Hroute Hcb. split_and!.
  - eexists. split_and!.
    + unfold handle_select. rewrite Hc. simpl.
      unfold chan_try_recv. rewrite Hbuf. reflexivity.
    + by apply Status_write_result.
    + unfold write_result. destruct (negb _); simpl; apply lookup_insert_eq.
    + unfold write_result. by destruct (String.eqb (Error result) "").
  - eexists _, _. split; [reflexivity|]. split_and!.
    + by apply Status_http_Error.
    + simpl. rewrite lookup_insert_ne by done. apply lookup_insert_eq.
    + done.
  - destruct (handle_begin_cases now r s0)
      as [(w1 & Hr & _)|(w1 & sc & ct & rid & s2 & Hr & -> & -> & [[Hc' _]|[_ Heq]])];
      [congruence..|].
    eexists _, _, _. split; [exact Heq|]. split_and!.
    + apply Status_http_Error. by rewrite (route_writer _ _ _ _ _ Hr).
    + simpl. rewrite lookup_insert_ne by done. apply lookup_insert_eq.
    + done.
Qed.

Lemma reply_by_outcome_witness :
  Status cors_writer = 0%nat ∧
  [{| chan_buf := [demo_both]; chan_closed := false |}] !! 0%nat
  = Some {| chan_buf := [demo_both]; chan_closed := false |} ∧
  chan_buf {| chan_buf := [demo_both]; chan_closed := false |} = demo_both :: [] ∧
  route demo_post demo_enabled = inr (cors_writer, demo_script, "hello") ∧
  globalScriptEventCallback demo_enabled = false ∧
  (∃ s', handle_select cors_writer "req_1700000000_1" 0 CaseResult
           (set_chans [{| chan_buf := [demo_both]; chan_closed := false |}]
              demo_waiting)
         = Some (write_result demo_both cors_writer, s') ∧
     Status (write_result demo_both cors_writer) = StatusOK ∧
     Header (write_result demo_both cors_writer) !! "Content-Type"
     = Some "application/json" ∧
     Body (write_result demo_both cors_writer)
     = BodyJSON (JObject [if String.eqb (Error demo_both) ""
                          then ("returnValue", ReturnValue demo_both)
                          else ("error", JString (Error demo_both))])) ∧
  (∃ w' s', handle_select cors_writer "req_1700000000_1" 0 CaseTimeout
              (set_chans [{| chan_buf := [demo_both]; chan_closed := false |}]
                 demo_waiting)
            = Some (w', s') ∧
     Status w' = StatusRequestTimeout ∧
     Header w' !! "Content-Type" = Some "text/plain; charset=utf-8" ∧
     Body w' = BodyText ("脚本执行超时" ++ newline)) ∧
  (∃ w' requestID' s',
     handle_begin 1700000000 demo_post demo_enabled
     = (Unavailable w' requestID', s') ∧
     Status w' = StatusInternalServerError ∧
     Header w' !! "Content-Type" = Some "text/plain; charset=utf-8" ∧
     Body w' = BodyText ("脚本执行器未初始化" ++ newline)).
Proof.
  split; [reflexivity|]. split; [reflexivity|]. split; [reflexivity|].
  split; [reflexivity|]. split; [reflexivity|].
  apply (reply_by_outcome cors_writer "req_1700000000_1" 0
           (set_chans [{| chan_buf := [demo_both]; chan_closed := false |}]
              demo_waiting)
           {| chan_buf := [demo_both]; chan_closed := false |} demo_both []
           1700000000 demo_post demo_enabled cors_writer demo_script "hello");
    reflexivity.
Defined.

(** C7, as stated, fails: for a result without value the handler writes
    the member [returnValue] with [null]; it does not leave it out. *)
Lemma absent_value_is_null_not_omitted :
  Body (write_result zero_result cors_writer) ≠ spec_success_body zero_result.
Proof. discriminate. Qed.

(** C10. The handler answers a received result with the [error] body
    exactly when its [Error] is not empty, whatever its [ReturnValue],
    and with the [returnValue] body otherwise, which carries [null] when
    there is no value. *)
Theorem error_takes_precedence w requestID resultChan s c result rest :
  chans s !! resultChan = Some c → chan_buf c = result :: rest →
  ∃ w' s',
    handle_select w requestID resultChan CaseResult s = Some (w', s') ∧
    (Body w' = BodyJSON (JObject [("error", JString (Error result))])
     ↔ Error result ≠ "") ∧
    (Body w' = BodyJSON (JObject [("returnValue", ReturnValue result)])
     ↔ Error result = "") ∧
    (Body w' = BodyJSON (JObject [("returnValue", JNull)])
     ↔ Error result = "" ∧ ReturnValue result = JNull).
Proof.
  intros Hc Hbuf. eexists _, _. split.
  - unfold handle_select. rewrite Hc. simpl.
    unfold chan_try_recv. rewrite Hbuf. reflexivity.
  - unfold write_result.
    destruct (String.eqb_spec (Error result) "") as [He|He]; simpl.
    + split_and!; split; try done; try congruence.
      * intros [= H]. done.
      * by intros [_ ->].
    + split_and!; split; try done; try congruence. by intros [? _].
Qed.

Lemma error_takes_precedence_witness :
  [{| chan_buf := [demo_both]; chan_closed := false |}] !! 0%nat
  = Some {| chan_buf := [demo_both]; chan_closed := false |} ∧
  chan_buf {| chan_buf := [demo_both]; chan_closed := false |} = demo_both :: [] ∧
  ∃ w' s',
    handle_select cors_writer "req_1700000000_1" 0 CaseResult
      (set_chans [{| chan_buf := [demo_both]; chan_closed := false |}] demo_waiting)
    = Some (w', s') ∧
    (Body w' = BodyJSON (JObject [("error", JString (Error demo_both))])
     ↔ Error demo_both ≠ "") ∧
    (Body w' = BodyJSON (JObject [("returnValue", ReturnValue demo_both)])
     ↔ Error demo_both = "") ∧
    (Body w' = BodyJSON (JObject [("returnValue", JNull)])
     ↔ Error demo_both = "" ∧ ReturnValue demo_both = JNull).
Proof.
  split; [reflexivity|]. split; [reflexivity|].
  apply (error_takes_precedence cors_writer "req_1700000000_1" 0
           (set_chans [{| chan_buf := [demo_both]; chan_closed := false |}]
              demo_waiting)
           {| chan_buf := [demo_both]; chan_closed := false |} demo_both []);
    reflexivity.
Defined.

End Replies.

(** ** The result sink *)

Section Sink.

(** C8, as amended.  For a request id that is not registered,
    [SetScriptHTTPResult] does not panic and leaves the state as it is;
    it returns nothing. *)
Theorem unregistered_delivery_is_noop s requestID result :
  scriptResults s !! requestID = None →
  SetScriptHTTPResult requestID result s = Some (tt, s).
Proof. intros H. unfold SetScriptHTTPResult. by rewrite H. Qed.

Lemma unregistered_delivery_is_noop_witness :
  scriptResults demo_waiting !! "req_1700000000_2" = None ∧
  SetScriptHTTPResult "req_1700000000_2" demo_both demo_waiting
  = Some (tt, demo_waiting).
Proof.
  split; [reflexivity|].
  apply (unregistered_delivery_is_noop demo_waiting "req_1700000000_2" demo_both).
  reflexivity.
Defined.

(** C8, as stated, fails: the sink has no result to tell a delivery that
    found no slot from one that was written. *)
Lemma sink_returns_nothing : ¬ sink_returns_whether_written.
Proof.
  intros (as_bool & Hmiss & Hhit).
  pose proof (Hmiss demo_waiting "req_1700000000_2" demo_both tt demo_waiting
                eq_refl eq_refl) as Hfalse.
  pose proof (Hhit demo_waiting "req_1700000000_1" 0%nat demo_both tt _
                eq_refl eq_refl eq_refl) as Htrue.
  congruence.
Qed.

End Sink.

(** * More of the package *)

(** ** Invariants of the reachable states *)

Section Invariants.

(** X1. In every reachable state each key of [scriptResults] is a request
    id made by line 309, each registered channel is in the store and open,
    no channel is registered under two ids, and no channel buffers more
    than one result. *)
Theorem reachable_states_well_formed ls s :
  run ls s →
  keys_minted s ∧ registered_open s ∧ registered_inj s ∧ within_cap s.
Proof. intros Hrun. by destruct (run_wf ls s Hrun). Qed.

Lemma reachable_states_well_formed_witness :
  run demo_history2 demo_waiting2 ∧
  keys_minted demo_waiting2 ∧ registered_open demo_waiting2 ∧
  registered_inj demo_waiting2 ∧ within_cap demo_waiting2.
Proof.
  split; [apply demo_run2|].
  apply (reachable_states_well_formed demo_history2 demo_waiting2 demo_run2).
Defined.





End Invariants.

(** ** Deliveries *)

Section Deliveries.

(** X3. Once the handler has left its [select], by the result or by the
    timeout, a result delivered for its request id is dropped: the call
    returns and the state is as it was. *)
Theorem late_delivery_is_dropped w requestID resultChan c s w' s' result :
  handle_select w requestID resultChan c s = Some (w', s') →
  SetScriptHTTPResult requestID result s' = Some (tt, s').
Proof.
  intros H. apply handle_select_removes in H.
  unfold SetScriptHTTPResult. by rewrite H.
Qed.

Lemma late_delivery_is_dropped_witness :
  handle_select cors_writer "req_1700000000_1" 0 CaseTimeout demo_waiting
  = Some (http_Error cors_writer "脚本执行超时" StatusRequestTimeout,
          registry_delete "req_1700000000_1" demo_waiting) ∧
  SetScriptHTTPResult "req_1700000000_1" demo_both
    (registry_delete "req_1700000000_1" demo_waiting)
  = Some (tt, registry_delete "req_1700000000_1" demo_waiting).
Proof.
  split; [reflexivity|].
  apply (late_delivery_is_dropped cors_writer "req_1700000000_1" 0 CaseTimeout
           demo_waiting
           (http_Error cors_writer "脚本执行超时" StatusRequestTimeout)
           (registry_delete "req_1700000000_1" demo_waiting) demo_both).
  reflexivity.
Defined.

(** X4. A handler that is blocked on a slot still open is registered, so
    a result delivered for its request id goes into its slot, and the
    handler answers with that result and deletes the id.  (The run is one
    whose counter has not wrapped.) *)
Theorem result_reaches_blocked_handler ls s w requestID resultChan result :
  run ls s → Z.of_nat (length (minted ls)) <= INT64_MAX →
  blocked ls w requestID resultChan →
  chans s !! resultChan = Some make_chan →
  ∃ s1 s2,
    scriptResults s !! requestID = Some resultChan ∧
    SetScriptHTTPResult requestID result s = Some (tt, s1) ∧
    chans s1 !! resultChan = Some {| chan_buf := [result]; chan_closed := false |} ∧
    handle_select w requestID resultChan CaseResult s1
    = Some (write_result result w, s2) ∧
    scriptResults s2 !! requestID = None.
Proof.
  intros Hrun Hlen Hb Hch.
  assert (scriptResults s !! requestID = Some resultChan) as Hreg.
  { destruct (run_blocked_live ls s Hrun Hlen _ _ _ Hb)
      as [?|(c & Hc & Hclosed)]; [done|].
    rewrite Hch in Hc. injection Hc as <-. done. }
  assert (resultChan < length (chans s))%nat as Hlt by eauto using lookup_lt_Some.
  eexists _, _. split_and!; [done|..].
  - unfold SetScriptHTTPResult. rewrite Hreg, Hch. reflexivity.
  - simpl. by rewrite list_lookup_insert_eq.
  - unfold handle_select. simpl.
    rewrite list_lookup_insert_eq by done. reflexivity.
  - simpl. apply lookup_delete_eq.
Qed.

Lemma result_reaches_blocked_handler_witness :
  run demo_history demo_waiting ∧
  Z.of_nat (length (minted demo_history)) <= INT64_MAX ∧
  blocked demo_history cors_writer "req_1700000000_1" 0 ∧
  chans demo_waiting !! 0%nat = Some make_chan ∧
  ∃ s1 s2,
    scriptResults demo_waiting !! "req_1700000000_1" = Some 0%nat ∧
    SetScriptHTTPResult "req_1700000000_1" demo_both demo_waiting = Some (tt, s1) ∧
    chans s1 !! 0%nat = Some {| chan_buf := [demo_both]; chan_closed := false |} ∧
    handle_select cors_writer "req_1700000000_1" 0 CaseResult s1
    = Some (write_result demo_both cors_writer, s2) ∧
    scriptResults s2 !! "req_1700000000_1" = None.
Proof.
  assert (Z.of_nat (length (minted demo_history)) <= INT64_MAX) as Hlen
    by (vm_compute; discriminate).
  split; [apply demo_run|]. split; [exact Hlen|].
  split; [apply demo_blocked|]. split; [reflexivity|].
  apply (result_reaches_blocked_handler demo_history demo_waiting cors_writer
           "req_1700000000_1" 0 demo_both demo_run Hlen demo_blocked).
  reflexivity.
Defined.

End Deliveries.

(** ** A whole dispatch *)

Section Dispatch.

Lemma run_select_minted ls s w requestID resultChan c w' :
  run ls s → LSelect w requestID resultChan c w' ∈ ls → requestID ∈ minted ls.
Proof.
  induction 1 as [|ls s l s' _ IH Hen _]; intros Hin.
  - by apply elem_of_nil in Hin.
  - rewrite minted_cons. apply elem_of_app. right.
    apply elem_of_cons in Hin as [<-|Hin]; [|by apply IH].
    destruct Hen as [(now & r & Hreq) _]. by apply waiting_minted in Hreq.
Qed.

(** The next request id is none of those made before. *)
Lemma next_id_fresh ls s now :
  run ls s → Z.of_nat (length (minted ls)) < INT64_MAX →
  requestID_of now (wrap64 (requestCounter s + 1)) ∉ minted ls.
Proof.
  intros Hrun Hlen Hin.
  destruct (run_minted ls s Hrun ltac:(lia)) as (Hcnt & Hctr & _).
  assert (int64 (Z.of_nat (length (minted ls)) + 1)) as Hint
    by (unfold int64, INT64_MIN, INT64_MAX in *; lia).
  rewrite Hcnt, wrap64_id in Hin by done.
  apply elem_of_reverse, (list_elem_of_fmap_2 token_counter) in Hin.
  rewrite Hctr, token_counter_requestID_of in Hin by done.
  apply list_elem_of_fmap in Hin as (z & [= <-] & Hz).
  apply elem_of_seqZ in Hz. lia.
Qed.

(** X5. A whole dispatch, from a reachable state whose counter is not at
    its end: a routed request with the callback set registers a request
    id that was not registered, and notifies the callback once with that
    id, the script's id and the content; a result then delivered is what
    the handler answers with; and the registry ends as it began. *)
Theorem dispatch_round_trip ls s now r w script content result :
  run ls s → Z.of_nat (length (minted ls)) < INT64_MAX → clock now →
  route r s = inr (w, script, content) →
  globalScriptEventCallback s = true →
  ∃ requestID resultChan s1 s2 s3,
    handle_begin now r s = (Waiting w requestID resultChan, s1) ∧
    scriptResults s !! requestID = None ∧
    events s1 = (events s ++
      [{| ev_name := "script.http.execute"; ev_requestID := requestID;
          ev_scriptID := ID script; ev_content := content |}])%list ∧
    SetScriptHTTPResult requestID result s1 = Some (tt, s2) ∧
    handle_select w requestID resultChan CaseResult s2
    = Some (write_result result w, s3) ∧
    scriptResults s3 = scriptResults s ∧
    run (LSelect w requestID resultChan CaseResult (write_result result w)
         :: LSetResult requestID result
         :: LRequest now r (Waiting w requestID resultChan) :: ls) s3.
Proof.
  intros Hrun Hlen Hnow Hroute Hcb.
  destruct (handle_begin_cases now r s)
    as [(w0 & Hr & _)|(w0 & sc & ct & rid & s2 & Hr & -> & -> & [[_ Heq]|[Hc _]])];
    [congruence| |congruence].
  rewrite Hr in Hroute. injection Hroute as -> -> ->.
  set (rid := requestID_of now (wrap64 (requestCounter s + 1))) in *.
  pose proof (next_id_fresh ls s now Hrun Hlen) as Hfresh. fold rid in Hfresh.
  assert (scriptResults s !! rid = None) as Hnone.
  { destruct (scriptResults s !! rid) as [ref|] eqn:Hreg; [|done].
    destruct (run_minted ls s Hrun ltac:(lia)) as (_ & _ & Hkeys).
    destruct Hfresh. apply Hkeys. eauto. }
  assert (length (chans s) < length (chans s ++ [make_chan]))%nat as Hlt
    by (rewrite length_app; simpl; lia).
  destruct (handle_begin now r s) as [res s1] eqn:Hbegin.
  injection Heq as -> Hs1.
  assert (scriptResults s1 = <[rid := length (chans s)]> (scriptResults s)) as Hreg1
    by (rewrite Hs1; reflexivity).
  assert (chans s1 = (chans s ++ [make_chan])%list) as Hch1
    by (rewrite Hs1; reflexivity).
  set (s2 := set_chans (<[length (chans s) := {| chan_buf := [result]; chan_closed := false |}]>
                          (chans s1)) s1).
  set (s3 := registry_delete rid (set_chans (<[length (chans s) := make_chan]> (chans s2)) s2)).
  assert (SetScriptHTTPResult rid result s1 = Some (tt, s2)) as Hset.
  { unfold SetScriptHTTPResult, s2. rewrite Hreg1, lookup_insert_eq, Hch1.
    rewrite lookup_app_r, Nat.sub_diag by done. reflexivity. }
  assert (handle_select w rid (length (chans s)) CaseResult s2
          = Some (write_result result w, s3)) as Hsel.
  { unfold handle_select. subst s2. simpl.
    rewrite list_lookup_insert_eq by (by rewrite Hch1). reflexivity. }
  exists rid, (length (chans s)), s1, s2, s3.
  split; [done|]. split; [exact Hnone|]. split; [rewrite Hs1; reflexivity|].
  split; [exact Hset|]. split; [exact Hsel|]. split.
  - subst s3 s2. simpl. rewrite Hreg1. by apply delete_insert_id.
  - assert (run (LRequest now r (Waiting w rid (length (chans s))) :: ls) s1)
      as Hrun1
      by (apply (run_step ls s); [done|exact I|by apply step_request]).
    assert (run (LSetResult rid result
                 :: LRequest now r (Waiting w rid (length (chans s))) :: ls) s2)
      as Hrun2
      by (apply (run_step _ s1); [done|exact I|by apply step_result]).
    apply (run_step _ s2); [done| |by apply step_select].
    split.
    + exists now, r. right. left.
    + intros c w' Hin.
      apply elem_of_cons in Hin as [?|Hin]; [done|].
      apply elem_of_cons in Hin as [?|Hin]; [done|].
      destruct Hfresh. by apply (run_select_minted ls s w rid (length (chans s)) c w').
Qed.

Lemma dispatch_round_trip_witness :
  run demo_history demo_waiting ∧
  Z.of_nat (length (minted demo_history)) < INT64_MAX ∧ clock 1700000000 ∧
  route demo_post demo_waiting = inr (cors_writer, demo_script, "hello") ∧
  globalScriptEventCallback demo_waiting = true ∧
  ∃ requestID resultChan s1 s2 s3,
    handle_begin 1700000000 demo_post demo_waiting
    = (Waiting cors_writer requestID resultChan, s1) ∧
    scriptResults demo_waiting !! requestID = None ∧
    events s1 = (events demo_waiting ++
      [{| ev_name := "script.http.execute"; ev_requestID := requestID;
          ev_scriptID := ID demo_script; ev_content := "hello" |}])%list ∧
    SetScriptHTTPResult requestID demo_both s1 = Some (tt, s2) ∧
    handle_select cors_writer requestID resultChan CaseResult s2
    = Some (write_result demo_both cors_writer, s3) ∧
    scriptResults s3 = scriptResults demo_waiting ∧
    run (LSelect cors_writer requestID resultChan CaseResult
           (write_result demo_both cors_writer)
         :: LSetResult requestID demo_both
         :: LRequest 1700000000 demo_post
              (Waiting cors_writer requestID resultChan) :: demo_history) s3.
Proof.
  assert (Z.of_nat (length (minted demo_history)) < INT64_MAX) as Hlen
    by (vm_compute; reflexivity).
  assert (clock 1700000000) as Hnow by (unfold clock, INT64_MAX; lia).
  split; [apply demo_run|]. split; [exact Hlen|]. split; [exact Hnow|].
  split; [reflexivity|]. split; [reflexivity|].
  apply (dispatch_round_trip demo_history demo_waiting 1700000000 demo_post
           cors_writer demo_script "hello" demo_both demo_run Hlen Hnow);
    reflexivity.
Defined.

End Dispatch.

(** ** Requests turned away, and the headers of every reply *)

Section Requests.

(** X6. The handler turns a request away before it makes a request id,
    leaving the state as it is, exactly when [rejection_status] gives a
    status, and then with that status: 200 for OPTIONS, else 400 for an
    empty identifier, else 404 for an identifier that is not enabled, else
    400 for a POST body that does not parse, else 405 for a method other
    than GET and POST.  Every other request is routed, advances the
    counter by one and registers its request id. *)
Theorem request_classification now r s :
  match rejection_status r s with
  | Some code =>
      ∃ w, handle_begin now r s = (Returned w, s) ∧ Status w = code
  | None =>
      (∃ w script content, route r s = inr (w, script, content)) ∧
      requestCounter (handle_begin now r s).2 = wrap64 (requestCounter s + 1) ∧
      is_Some (scriptResults (handle_begin now r s).2
               !! requestID_of now (wrap64 (requestCounter s + 1)))
  end.
Proof.
  assert (∀ w script content, route r s = inr (w, script, content) →
            requestCounter (handle_begin now r s).2
            = wrap64 (requestCounter s + 1) ∧
            is_Some (scriptResults (handle_begin now r s).2
                     !! requestID_of now (wrap64 (requestCounter s + 1))))
    as Hrouted.
  { intros w script content Hr.
    destruct (handle_begin_cases now r s)
      as [(w0 & Hr0 & _)|(w0 & sc & ct & rid & s2 & _ & -> & -> & [[_ ->]|[_ ->]])];
      [congruence|..]; simpl; (split; [done|]);
      rewrite lookup_insert_eq; eauto. }
  unfold rejection_status.
  destruct (String.eqb (Method r) "OPTIONS") eqn:Hopt.
  { exists (WriteHeader StatusOK cors_writer).
    unfold handle_begin, route. rewrite Hopt. done. }
  destruct (String.eqb (GoStrings.TrimPrefix (URLPath r) "/clip-save/") "")
    eqn:Hpath.
  { eexists. unfold handle_begin, route. rewrite Hopt, Hpath. done. }
  destruct (enabledScripts s !! GoStrings.TrimPrefix (URLPath r) "/clip-save/")
    as [script|] eqn:Hlook; simpl.
  2:{ eexists. unfold handle_begin, route. rewrite Hopt, Hpath, Hlook. done. }
  assert (route r s = match extract_content cors_writer r with
                      | inl w' => inl w'
                      | inr content => inr (cors_writer, script, content)
                      end) as Hroute
    by (unfold route; rewrite Hopt, Hpath, Hlook; done).
  unfold extract_content in Hroute.
  destruct (String.eqb (Method r) "GET") eqn:Hget.
  { split; [eauto|]. by apply (Hrouted _ _ _ Hroute). }
  destruct (String.eqb (Method r) "POST") eqn:Hpost.
  2:{ eexists. unfold handle_begin. rewrite Hroute. done. }
  destruct (GoStrings.Contains (ContentType r) "application/json").
  - destruct (JSONBody r) as [e|jsonData].
    + eexists. unfold handle_begin. rewrite Hroute. done.
    + destruct (jsonData !! "content") as [[]|];
        (split; [eauto|]); by apply (Hrouted _ _ _ Hroute).
  - destruct (FormContent r) as [e|content].
    + eexists. unfold handle_begin. rewrite Hroute. done.
    + split; [eauto|]. by apply (Hrouted _ _ _ Hroute).
Qed.

Lemma has_cors_cors_writer : has_cors cors_writer.
Proof. split_and!; reflexivity. Qed.

Lemma has_cors_WriteHeader w code : has_cors w → has_cors (WriteHeader code w).
Proof. done. Qed.

Lemma has_cors_http_Error w msg code :
  has_cors w → has_cors (http_Error w msg code).
Proof.
  intros (H1 & H2 & H3). unfold has_cors. simpl.
  by rewrite !lookup_insert_ne.
Qed.

Lemma has_cors_write_result result w :
  has_cors w → has_cors (write_result result w).
Proof.
  intros (H1 & H2 & H3). unfold has_cors, write_result.
  destruct (negb _); simpl; by rewrite !lookup_insert_ne.
Qed.

Lemma has_cors_route r s w :
  route r s = inl w → has_cors w.
Proof.
  unfold route, extract_content. intros H.
  repeat case_match; simplify_eq;
    auto using has_cors_cors_writer, has_cors_WriteHeader, has_cors_http_Error.
Qed.

(** X7. Every reply of the handler carries the three CORS headers of
    lines 251-253: the early replies, the 500 of the missing callback, and
    whatever a waiting handler answers when it leaves its [select]. *)
Theorem every_reply_has_cors now r s :
  match (handle_begin now r s).1 with
  | Returned w => has_cors w
  | Unavailable w _ => has_cors w
  | Waiting w requestID resultChan =>
      ∀ c s1 w1 s2,
        handle_select w requestID resultChan c s1 = Some (w1, s2) → has_cors w1
  end.
Proof.
  destruct (handle_begin_cases now r s)
    as [(w & Hr & ->)|(w & sc & ct & rid & s2 & Hr & -> & -> & [[_ ->]|[_ ->]])];
    simpl.
  - by apply (has_cors_route r s).
  - apply route_writer in Hr as ->. intros c s1 w1 s3 H.
    destruct c; simpl in H.
    + destruct (chans s1 !! _) as [ch|]; [|done]. simpl in H.
      destruct (chan_try_recv ch) as [[v ch']|]; [|done]. simpl in H.
      injection H as <- _. apply has_cors_write_result, has_cors_cors_writer.
    + injection H as <- _. apply has_cors_http_Error, has_cors_cors_writer.
  - apply route_writer in Hr as ->.
    apply has_cors_http_Error, has_cors_cors_writer.
Qed.

End Requests.

(** ** Starting and stopping *)

Section Lifecycle.

(** No slice of [GetScriptIdentifier] is out of range. *)
Lemma GetScriptIdentifier_defined script :
  ∃ identifier, GetScriptIdentifier script = Some identifier.
Proof.
  unfold GetScriptIdentifier, GoStrings.slice_from, GoStrings.slice.
  destruct (negb _); [eauto|].
  destruct (15 <=? _)%nat eqn:H15.
  - apply Nat.leb_le in H15.
    replace (14 <=? String.length (ID script))%nat with true
      by (symmetry; apply Nat.leb_le; lia). eauto.
  - destruct (6 <? _)%nat eqn:H6; [|eauto]. apply Nat.ltb_lt in H6.
    replace (6 <=? String.length (ID script))%nat with true
      by (symmetry; apply Nat.leb_le; lia).
    rewrite Nat.leb_refl. eauto.
Qed.

Lemma close_where_None P l :
  foldl (λ acc kv, s' ← acc;
           if P kv.1 : bool then close_and_delete kv.1 kv.2 s' else Some s')
        None l = None.
Proof. by induction l. Qed.

(** The loops touch the registry and the channels only. *)
Lemma close_where_frame P l : ∀ s s',
  close_where P l s = Some s' →
  enabledScripts s' = enabledScripts s ∧ httpServer s' = httpServer s ∧
  cleanupTicker s' = cleanupTicker s ∧ cleanupStopChan s' = cleanupStopChan s ∧
  globalScriptEventCallback s' = globalScriptEventCallback s ∧
  events s' = events s.
Proof.
  induction l as [|[k ref] l IH]; intros s s' H.
  - by injection H as <-.
  - unfold close_where in H. simpl in H. destruct (P k).
    + destruct (close_and_delete k ref s) as [s1|] eqn:Hcd;
        [|by rewrite close_where_None in H].
      apply IH in H as (-> & -> & -> & -> & -> & ->).
      unfold close_and_delete, close_ref in Hcd.
      destruct (chans s !! ref) as [c|]; [|done]. simpl in Hcd.
      destruct (chan_close c); [|done]. simpl in Hcd.
      by injection Hcd as <-.
    + by apply IH in H.
Qed.

(** X8. Stopping a running server (its [Close] succeeding) turns the
    server and the sweeper off and empties the registry, but leaves the
    scripts enabled; stopping again does nothing; and the server can be
    started again, with the same scripts enabled and an empty registry. *)
Theorem stop_and_start_again ls s closeErr :
  run ls s → httpServer s = true →
  ∃ s1 s2,
    StopScriptHTTPServer None s = Some (None, s1) ∧
    httpServer s1 = false ∧ cleanupTicker s1 = false ∧
    scriptResults s1 = ∅ ∧ enabledScripts s1 = enabledScripts s ∧
    StopScriptHTTPServer closeErr s1 = Some (None, s1) ∧
    StartScriptHTTPServer s1 = (None, s2) ∧
    httpServer s2 = true ∧ cleanupTicker s2 = true ∧
    scriptResults s2 = ∅ ∧ enabledScripts s2 = enabledScripts s.
Proof.
  intros Hrun Hsrv. pose proof (run_wf ls s Hrun) as Hwf.
  destruct (StopScriptHTTPServer_spec s Hwf Hsrv)
    as (s1 & Hstop & _ & _ & Hempty & Hoff & _).
  assert (cleanupTicker s1 = false ∧ enabledScripts s1 = enabledScripts s)
    as [Htick Hen].
  { unfold StopScriptHTTPServer in Hstop. rewrite Hsrv in Hstop. simpl in Hstop.
    destruct (foldl _ _ _) as [s0|] eqn:Hfold; [|done]. simpl in Hstop.
    injection Hstop as <-.
    apply (close_where_frame (λ _, true)) in Hfold as (Hen & _ & Htk & _).
    simpl. by rewrite Hen, Htk. }
  exists s1, (set_cleanup true true (set_httpServer true s1)).
  split_and!; try done.
  - unfold StopScriptHTTPServer. by rewrite Hoff.
  - unfold StartScriptHTTPServer. by rewrite Hoff.
Qed.

Lemma stop_and_start_again_witness :
  run demo_history demo_waiting ∧ httpServer demo_waiting = true ∧
  ∃ s1 s2,
    StopScriptHTTPServer None demo_waiting = Some (None, s1) ∧
    httpServer s1 = false ∧ cleanupTicker s1 = false ∧
    scriptResults s1 = ∅ ∧ enabledScripts s1 = enabledScripts demo_waiting ∧
    StopScriptHTTPServer (Some "closed") s1 = Some (None, s1) ∧
    StartScriptHTTPServer s1 = (None, s2) ∧
    httpServer s2 = true ∧ cleanupTicker s2 = true ∧
    scriptResults s2 = ∅ ∧ enabledScripts s2 = enabledScripts demo_waiting.
Proof.
  split; [apply demo_run|]. split; [reflexivity|].
  apply (stop_and_start_again demo_history demo_waiting (Some "closed")
           demo_run eq_refl).
Defined.

(** X9. When [Close] fails on a running server, the stop returns the
    error with the server still marked running and the registry as it
    was, but the sweeper is already gone: no tick can follow, and neither
    a start, which is refused, nor enabling a script brings it back. *)
Theorem failed_stop_leaves_sweeper_off s e script :
  httpServer s = true →
  ∃ s1 s2,
    StopScriptHTTPServer (Some e) s
    = Some (Some ("停止 HTTP 服务器失败: " ++ e), s1) ∧
    httpServer s1 = true ∧ cleanupTicker s1 = false ∧
    scriptResults s1 = scriptResults s ∧ chans s1 = chans s ∧
    (∀ now n s', ¬ step s1 (LTick now n) s') ∧
    StartScriptHTTPServer s1 = (Some "HTTP 服务器已在运行", s1) ∧
    EnableScriptHTTPService (inr script) s1 = Some (None, s2) ∧
    cleanupTicker s2 = false.
Proof.
  intros Hsrv.
  destruct (GetScriptIdentifier_defined script) as [identifier Hid].
  eexists _, _. split_and!.
  - unfold StopScriptHTTPServer. rewrite Hsrv. reflexivity.
  - done.
  - done.
  - done.
  - done.
  - intros now n s' Hstep. inversion Hstep as [| | | | | | | |? ? ? ? Htick].
    simpl in Htick. done.
  - unfold StartScriptHTTPServer. simpl. by rewrite Hsrv.
  - unfold EnableScriptHTTPService. rewrite Hid. simpl. rewrite Hsrv. reflexivity.
  - done.
Qed.

Lemma failed_stop_leaves_sweeper_off_witness :
  httpServer demo_waiting = true ∧
  ∃ s1 s2,
    StopScriptHTTPServer (Some "busy") demo_waiting
    = Some (Some ("停止 HTTP 服务器失败: " ++ "busy"), s1) ∧
    httpServer s1 = true ∧ cleanupTicker s1 = false ∧
    scriptResults s1 = scriptResults demo_waiting ∧
    chans s1 = chans demo_waiting ∧
    (∀ now n s', ¬ step s1 (LTick now n) s') ∧
    StartScriptHTTPServer s1 = (Some "HTTP 服务器已在运行", s1) ∧
    EnableScriptHTTPService (inr demo_a) s1 = Some (None, s2) ∧
    cleanupTicker s2 = false.
Proof.
  split; [reflexivity|].
  apply (failed_stop_leaves_sweeper_off demo_waiting "busy" demo_a).
  reflexivity.
Defined.

End Lifecycle.

(** ** Enabling and disabling scripts *)

Section Scripts.

Lemma Enable_found script identifier s :
  GetScriptIdentifier script = Some identifier →
  ∃ s1,
    EnableScriptHTTPService (inr script) s = Some (None, s1) ∧
    enabledScripts s1 = <[identifier := script]> (enabledScripts s) ∧
    httpServer s1 = true ∧
    scriptResults s1 = scriptResults s ∧ chans s1 = chans s ∧
    globalScriptEventCallback s1 = globalScriptEventCallback s.
Proof.
  intros Hid. unfold EnableScriptHTTPService, StartScriptHTTPServer.
  rewrite Hid. simpl. destruct (httpServer s) eqn:Hsrv; simpl.
  - eexists. split; [reflexivity|]. by split_and!.
  - eexists. split; [reflexivity|]. by split_and!.
Qed.

Lemma IsEnabled_lookup script identifier s :
  GetScriptIdentifier script = Some identifier →
  IsScriptHTTPServiceEnabled (inr script) s
  = Some (bool_decide (is_Some (enabledScripts s !! identifier))).
Proof.
  intros Hid. unfold IsScriptHTTPServiceEnabled. rewrite Hid. simpl.
  destruct (enabledScripts s !! identifier); [|done].
  by rewrite bool_decide_eq_true_2 by eauto.
Qed.

(** X10. Enabling a script always succeeds once the script is found: the
    script is then stored under its identifier, the server runs, and
    [IsScriptHTTPServiceEnabled] answers true.  Disabling it makes that
    answer false again, leaves the server running and does not touch the
    registry of pending requests.  ([GetUserScriptByID] answers the same
    script at each of the calls.) *)
Theorem enable_disable_round_trip script s :
  ∃ identifier s1 s2,
    GetScriptIdentifier script = Some identifier ∧
    EnableScriptHTTPService (inr script) s = Some (None, s1) ∧
    enabledScripts s1 !! identifier = Some script ∧
    httpServer s1 = true ∧
    IsScriptHTTPServiceEnabled (inr script) s1 = Some true ∧
    DisableScriptHTTPService (inr script) s1 = Some (None, s2) ∧
    IsScriptHTTPServiceEnabled (inr script) s2 = Some false ∧
    httpServer s2 = true ∧
    scriptResults s2 = scriptResults s ∧ chans s2 = chans s.
Proof.
  destruct (GetScriptIdentifier_defined script) as [identifier Hid].
  destruct (Enable_found script identifier s Hid)
    as (s1 & Hen & Hmap & Hsrv & Hreg & Hch & _).
  exists identifier, s1,
    (set_enabledScripts (delete identifier (enabledScripts s1)) s1).
  split_and!; try done.
  - rewrite Hmap. apply lookup_insert_eq.
  - rewrite (IsEnabled_lookup _ identifier) by done.
    rewrite Hmap, lookup_insert_eq. by rewrite bool_decide_eq_true_2 by eauto.
  - unfold DisableScriptHTTPService. by rewrite Hid.
  - rewrite (IsEnabled_lookup _ identifier) by done. simpl.
    rewrite lookup_delete_eq. by rewrite bool_decide_eq_false_2 by by intros [].
Qed.

(** X11. The registry of scripts is keyed by identifier alone.  When two
    scripts have the same identifier, enabling the second replaces the
    first under it, while the first still reports as enabled; and
    disabling the first disables the second. *)
Theorem same_identifier_scripts_collide a b s :
  GetScriptIdentifier a = GetScriptIdentifier b →
  ∃ identifier s1 s2 s3,
    GetScriptIdentifier a = Some identifier ∧
    EnableScriptHTTPService (inr a) s = Some (None, s1) ∧
    EnableScriptHTTPService (inr b) s1 = Some (None, s2) ∧
    enabledScripts s2 !! identifier = Some b ∧
    IsScriptHTTPServiceEnabled (inr a) s2 = Some true ∧
    DisableScriptHTTPService (inr a) s2 = Some (None, s3) ∧
    IsScriptHTTPServiceEnabled (inr b) s3 = Some false.
Proof.
  intros Hsame.
  destruct (GetScriptIdentifier_defined a) as [identifier Ha].
  assert (GetScriptIdentifier b = Some identifier) as Hb by congruence.
  destruct (Enable_found a identifier s Ha) as (s1 & Hen1 & Hmap1 & _).
  destruct (Enable_found b identifier s1 Hb) as (s2 & Hen2 & Hmap2 & _).
  exists identifier, s1, s2,
    (set_enabledScripts (delete identifier (enabledScripts s2)) s2).
  split_and!; try done.
  - rewrite Hmap2. apply lookup_insert_eq.
  - rewrite (IsEnabled_lookup _ identifier) by done.
    rewrite Hmap2, lookup_insert_eq. by rewrite bool_decide_eq_true_2 by eauto.
  - unfold DisableScriptHTTPService. by rewrite Ha.
  - rewrite (IsEnabled_lookup _ identifier) by done. simpl.
    rewrite lookup_delete_eq. by rewrite bool_decide_eq_false_2 by by intros [].
Qed.

Lemma same_identifier_scripts_collide_witness :
  GetScriptIdentifier demo_a = GetScriptIdentifier demo_b ∧
  ∃ identifier s1 s2 s3,
    GetScriptIdentifier demo_a = Some identifier ∧
    EnableScriptHTTPService (inr demo_a) init_state = Some (None, s1) ∧
    EnableScriptHTTPService (inr demo_b) s1 = Some (None, s2) ∧
    enabledScripts s2 !! identifier = Some demo_b ∧
    IsScriptHTTPServiceEnabled (inr demo_a) s2 = Some true ∧
    DisableScriptHTTPService (inr demo_a) s2 = Some (None, s3) ∧
    IsScriptHTTPServiceEnabled (inr demo_b) s3 = Some false.
Proof.
  split; [reflexivity|].
  apply (same_identifier_scripts_collide demo_a demo_b init_state).
  reflexivity.
Defined.






Lemma identifier_empty script :
  GetScriptIdentifier script = Some "" → PluginID script = "" ∧ ID script = "".
Proof.
  unfold GetScriptIdentifier, GoStrings.slice_from, GoStrings.slice.
  destruct (String.eqb_spec (PluginID script) "") as [Hp|Hp];
    unfold negb; [|by intros [= ?]].
  destruct (Nat.leb_spec 15 (String.length (ID script))) as [H15|H15].
  { replace (14 <=? String.length (ID script))%nat with true
      by (symmetry; apply Nat.leb_le; lia).
    intros [= H].
    pose proof (substring_length (ID script) 6 8 ltac:(lia)) as Hlen.
    change (14 - 6)%nat with 8%nat in H. rewrite H in Hlen. done. }
  destruct (Nat.ltb_spec 6 (String.length (ID script))) as [H6|H6].
  { replace (6 <=? String.length (ID script))%nat with true
      by (symmetry; apply Nat.leb_le; lia).
    rewrite Nat.leb_refl. intros [= H].
    pose proof (substring_length (ID script) 6 (String.length (ID script) - 6)
                  ltac:(lia)) as Hlen.
    rewrite H in Hlen. simpl in Hlen. lia. }
  intros [= H]. done.
Qed.

(** X12. Only a script with neither plugin id nor id has the empty
    identifier.  Such a script can be enabled, reports as enabled and is
    given a URL, but the path of that URL names no script: every request
    for it is answered 400, before the registry of scripts is looked at. *)
Theorem script_without_ids_cannot_be_called script s now r addr :
  PluginID script = "" → ID script = "" →
  Method r ≠ "OPTIONS" → URLPath r = "/clip-save/" →
  (∀ script', GetScriptIdentifier script' = Some "" →
     PluginID script' = "" ∧ ID script' = "") ∧
  ∃ s1 w,
    EnableScriptHTTPService (inr script) s = Some (None, s1) ∧
    enabledScripts s1 !! "" = Some script ∧
    IsScriptHTTPServiceEnabled (inr script) s1 = Some true ∧
    GetScriptHTTPURL (inr script) (inr addr)
    = Some (inr ("http://" ++ addr ++ ":6527" ++ URLPath r ++ "?content=xx")) ∧
    handle_begin now r s1 = (Returned w, s1) ∧
    Status w = StatusBadRequest.
Proof.
  intros Hp Hi Hm Hpath. split; [apply identifier_empty|].
  assert (GetScriptIdentifier script = Some "") as Hid.
  { unfold GetScriptIdentifier. by rewrite Hp, Hi. }
  destruct (Enable_found script "" s Hid) as (s1 & Hen & Hmap & _).
  exists s1. eexists. split_and!; [done| | | | |].
  - rewrite Hmap. apply lookup_insert_eq.
  - rewrite (IsEnabled_lookup _ "") by done.
    rewrite Hmap, lookup_insert_eq. by rewrite bool_decide_eq_true_2 by eauto.
  - unfold GetScriptHTTPURL. rewrite Hid, Hpath. reflexivity.
  - unfold handle_begin, route. apply String.eqb_neq in Hm. rewrite Hm, Hpath.
    reflexivity.
  - reflexivity.
Qed.

Lemma script_without_ids_cannot_be_called_witness :
  PluginID demo_anonymous = "" ∧ ID demo_anonymous = "" ∧
  Method demo_root ≠ "OPTIONS" ∧ URLPath demo_root = "/clip-save/" ∧
  (∀ script', GetScriptIdentifier script' = Some "" →
     PluginID script' = "" ∧ ID script' = "") ∧
  ∃ s1 w,
    EnableScriptHTTPService (inr demo_anonymous) demo_ready = Some (None, s1) ∧
    enabledScripts s1 !! "" = Some demo_anonymous ∧
    IsScriptHTTPServiceEnabled (inr demo_anonymous) s1 = Some true ∧
    GetScriptHTTPURL (inr demo_anonymous) (inr "192.168.26.11")
    = Some (inr ("http://" ++ "192.168.26.11" ++ ":6527" ++ URLPath demo_root
                 ++ "?content=xx")) ∧
    handle_begin 1700000000 demo_root s1 = (Returned w, s1) ∧
    Status w = StatusBadRequest.
Proof.
  assert (Method demo_root ≠ "OPTIONS") as Hm by discriminate.
  split; [reflexivity|]. split; [reflexivity|]. split; [exact Hm|].
  split; [reflexivity|].
  apply (script_without_ids_cannot_be_called demo_anonymous demo_ready
           1700000000 demo_root "192.168.26.11" eq_refl eq_refl Hm eq_refl).
Defined.



End Scripts.

(** ** The sweeper *)

Section Sweeper.

(** The loop of the sweeper counts one for each entry it deletes. *)
Lemma cleanup_count now l : ∀ n0 s,
  wf s → NoDup l.*1 →
  (∀ k ref, (k, ref) ∈ l → scriptResults s !! k = Some ref) →
  ∃ n s', foldl (cleanup_entry now) (Some (n0, s)) l = Some (n, s') ∧
    n0 <= n ∧
    Z.of_nat (size (scriptResults s))
    = Z.of_nat (size (scriptResults s')) + (n - n0).
Proof.
  induction l as [|[k ref] l IH]; intros n0 s Hwf Hnd Hl.
  - exists n0, s. split_and!; [done|lia|lia].
  - rewrite fmap_cons in Hnd. apply NoDup_cons in Hnd as [Hk Hnd]. simpl in Hk.
    assert (scriptResults s !! k = Some ref) as Hkref by (apply Hl; left).
    simpl. destruct (expired now k) eqn:Hexp.
    + destruct (close_and_delete_eq k ref s Hwf Hkref) as (c & Hc & ->).
      simpl. set (s1 := registry_delete k _).
      destruct (IH (n0 + 1) s1) as (n & s' & Hrun & Hle & Hsize).
      * by apply wf_close_and_delete.
      * done.
      * intros k' r Hin. subst s1. simpl. rewrite lookup_delete_ne.
        -- apply Hl. by right.
        -- intros ->. apply Hk. apply list_elem_of_fmap. by exists (k', r).
      * exists n, s'. split_and!; [done|lia|].
        assert (size (scriptResults s1) = pred (size (scriptResults s))) as Hs1.
        { subst s1. simpl. apply map_size_delete_Some. eauto. }
        assert (size (scriptResults s) ≠ 0%nat) as Hpos.
        { apply map_size_non_empty_iff. intros Hempty.
          by rewrite Hempty, lookup_empty in Hkref. }
        lia.
    + apply IH; [done..|]. intros k' r Hin. apply Hl. by right.
Qed.

(** With nothing to delete the loop changes nothing. *)
Lemma cleanup_none now l : ∀ n s,
  (∀ k ref, (k, ref) ∈ l → expired now k = false) →
  foldl (cleanup_entry now) (Some (n, s)) l = Some (n, s).
Proof.
  induction l as [|[k ref] l IH]; intros n s Hl; [done|].
  simpl. rewrite (Hl k ref) by left. apply IH.
  intros k' r Hin. apply (Hl k' r). by right.
Qed.

(** X14. The count that a tick of the sweeper reports is the number of
    entries by which the registry has shrunk; and once the sweeper has run
    at [now], a tick at that or an earlier clock reading finds nothing: it
    reports 0 and leaves the state as it is. *)
Theorem sweep_counts_what_it_removes ls s now :
  run ls s → clock now →
  ∃ n s',
    cleanupExpiredResults now s = Some (n, s') ∧
    0 <= n ∧
    Z.of_nat (size (scriptResults s)) = Z.of_nat (size (scriptResults s')) + n ∧
    ∀ now', clock now' → now' <= now →
      cleanupExpiredResults now' s' = Some (0, s').
Proof.
  intros Hrun Hnow. pose proof (run_wf ls s Hrun) as Hwf.
  destruct (cleanupExpiredResults_spec now s Hwf)
    as (n & s' & Heq & Hwf' & _ & Hreg & _).
  destruct (cleanup_count now (map_to_list (scriptResults s)) 0 s)
    as (n2 & s2 & Heq2 & Hle & Hsize).
  - done.
  - apply NoDup_fst_map_to_list.
  - intros k ref H. by apply elem_of_map_to_list.
  - unfold cleanupExpiredResults in Heq. rewrite Heq in Heq2.
    injection Heq2 as <- <-.
    exists n, s'. split_and!; [done|lia|lia|].
    intros now' Hnow' Hle'. apply cleanup_none.
    intros k ref Hin. apply elem_of_map_to_list in Hin.
    destruct (wf_keys s' Hwf' k ref Hin) as (ts & c & -> & Hts & _).
    rewrite Hreg in Hin. rewrite expired_requestID_of in * by done.
    destruct (60 <? now - ts) eqn:Hold; [done|].
    apply Z.ltb_ge in Hold. apply Z.ltb_ge. lia.
Qed.

Lemma sweep_counts_what_it_removes_witness :
  run demo_history2 demo_waiting2 ∧ clock 1700000061 ∧
  ∃ n s',
    cleanupExpiredResults 1700000061 demo_waiting2 = Some (n, s') ∧
    0 <= n ∧
    Z.of_nat (size (scriptResults demo_waiting2))
    = Z.of_nat (size (scriptResults s')) + n ∧
    ∀ now', clock now' → now' <= 1700000061 →
      cleanupExpiredResults now' s' = Some (0, s').
Proof.
  assert (clock 1700000061) as Hnow by (unfold clock, INT64_MAX; lia).
  split; [apply demo_run2|]. split; [exact Hnow|].
  apply (sweep_counts_what_it_removes demo_history2 demo_waiting2 1700000061
           demo_run2 Hnow).
Defined.

Lemma unavailable_minted ls now r w requestID :
  LRequest now r (Unavailable w requestID) ∈ ls → requestID ∈ minted ls.
Proof.
  induction ls as [|l ls IH]; intros H; [by apply elem_of_nil in H|].
  rewrite minted_cons. apply elem_of_app.
  apply elem_of_cons in H as [<-|H]; [left; simpl; left|right; auto].
Qed.

(** No handler waits on a request id that was given up with 500. *)
Lemma unavailable_not_waiting ls n1 r1 w1 n2 r2 w2 ch2 requestID :
  NoDup (minted ls) →
  LRequest n1 r1 (Unavailable w1 requestID) ∈ ls →
  LRequest n2 r2 (Waiting w2 requestID ch2) ∈ ls → False.
Proof.
  induction ls as [|l ls IH]; intros Hnd H1 H2; [by apply elem_of_nil in H1|].
  rewrite minted_cons in Hnd. apply NoDup_app in Hnd as (_ & Hdisj & Hnd).
  apply elem_of_cons in H1 as [E1|H1]; apply elem_of_cons in H2 as [E2|H2].
  - rewrite <- E1 in E2. discriminate E2.
  - destruct (Hdisj requestID); [subst l; simpl; left|].
    by apply waiting_minted in H2.
  - destruct (Hdisj requestID); [subst l; simpl; left|].
    by apply unavailable_minted in H1.
  - by apply IH.
Qed.

Lemma demo_run_leaked : run demo_history_leaked demo_leaked.
Proof.
  apply (run_step _ demo_enabled); [|exact I|].
  - apply (run_step _ init_state); [apply run_init|exact I|].
    apply step_enable. reflexivity.
  - apply step_request; [|reflexivity].
    unfold clock, INT64_MAX. lia.
Defined.

(** X15. The request id that the handler leaves registered when it
    answers 500 (the callback being nil) stays registered, with its
    channel, through every later step of the package but two: a tick of
    the sweeper more than 60 seconds after the request, and a stop of the
    running server whose [Close] succeeds.  No request, result, timeout,
    enabling or disabling removes or replaces it. *)
Theorem leaked_id_waits_for_the_sweeper ls s now r w requestID resultChan l s' :
  run ls s → Z.of_nat (length (minted ls)) < INT64_MAX →
  LRequest now r (Unavailable w requestID) ∈ ls →
  scriptResults s !! requestID = Some resultChan →
  enabled ls l → step s l s' →
  scriptResults s' !! requestID
  = match l with
    | LTick now' _ => if 60 <? now' - now then None else Some resultChan
    | LStop closeErr _ =>
        if httpServer s && bool_decide (closeErr = None) then None
        else Some resultChan
    | _ => Some resultChan
    end.
Proof.
  intros Hrun Hlen Hin Hreg Hen Hstep.
  pose proof (run_wf ls s Hrun) as Hwf.
  pose proof (run_minted_NoDup ls s Hrun ltac:(lia)) as Hnd.
  pose proof (next_id_fresh ls s) as Hfresh.
  pose proof (unavailable_minted _ _ _ _ _ Hin) as Hminted.
  pose proof (run_minted_timestamp ls s now r _ requestID Hrun Hin
                ltac:(simpl; left)) as Hts.
  destruct Hstep as
    [lookup err s s' H|lookup err s s' H|err s s' H|closeErr err s s' H
    |b s|now0 r0 res s s' Hnow0 H|w0 rid ch cs w' s s' H|rid result s s' H
    |now0 n s s' Htick Hnow0 H].
  - apply Enable_core in H as (-> & _ & _). done.
  - apply Disable_core in H as (-> & _ & _). done.
  - apply Start_core in H as (-> & _ & _). done.
  - unfold StopScriptHTTPServer in H. destruct (httpServer s) eqn:Hsrv; simpl in H.
    + destruct closeErr as [e|].
      * injection H as <- <-. done.
      * destruct (StopScriptHTTPServer_spec s Hwf Hsrv)
          as (s1 & Heq & _ & _ & Hempty & _).
        unfold StopScriptHTTPServer in Heq. rewrite Hsrv in Heq. simpl in Heq.
        rewrite Heq in H. injection H as <- <-.
        by rewrite Hempty, lookup_empty.
    + injection H as <- <-. done.
  - done.
  - destruct (handle_begin_cases now0 r0 s)
      as [(w0 & _ & Heq)|(w0 & script & content & rid & s2 & _ & -> & -> & [[_ Heq]|[_ Heq]])];
      rewrite Heq in H; injection H as <- <-; [done|..]; simpl;
      (rewrite lookup_insert_ne; [done|]; intros Hsame;
       apply (Hfresh now0 Hrun Hlen); by rewrite Hsame).
  - assert (rid ≠ requestID) as Hne.
    { intros ->. destruct Hen as [(n2 & r2 & Hw) _].
      by apply (unavailable_not_waiting ls now r w n2 r2 w0 ch requestID). }
    destruct cs; simpl in H.
    + destruct (chans s !! ch) as [c0|]; [|done]. simpl in H.
      destruct (chan_try_recv c0) as [[v c1]|]; [|done]. simpl in H.
      injection H as <- <-. simpl. by rewrite lookup_delete_ne.
    + injection H as <- <-. simpl. by rewrite lookup_delete_ne.
  - unfold SetScriptHTTPResult in H.
    destruct (scriptResults s !! rid) as [r1|]; [|by injection H as <-].
    destruct (chans s !! r1) as [c0|]; [|done]. simpl in H.
    destruct (chan_try_send result c0); [|by injection H as <-|done].
    by injection H as <-.
  - destruct (cleanupExpiredResults_spec now0 s Hwf)
      as (n' & s'' & Heq & _ & _ & Hlook & _).
    rewrite Heq in H. injection H as <- <-.
    rewrite Hlook.
    destruct (wf_keys s Hwf _ _ Hreg) as (ts & c & Hk & Hclock & _).
    rewrite Hk in Hts.
    rewrite token_timestamp_requestID_of in Hts by by apply clock_int64.
    injection Hts as ->.
    rewrite Hk at 1. rewrite expired_requestID_of by done.
    by destruct (60 <? now0 - now).
Qed.

Lemma leaked_id_waits_for_the_sweeper_witness :
  run demo_history_leaked demo_leaked ∧
  Z.of_nat (length (minted demo_history_leaked)) < INT64_MAX ∧
  LRequest 1700000000 demo_post
    (Unavailable (http_Error cors_writer "脚本执行器未初始化"
                    StatusInternalServerError) "req_1700000000_1")
    ∈ demo_history_leaked ∧
  scriptResults demo_leaked !! "req_1700000000_1" = Some 0%nat ∧
  enabled demo_history_leaked (LTick 1700000061 1) ∧
  step demo_leaked (LTick 1700000061 1) demo_swept ∧
  scriptResults demo_swept !! "req_1700000000_1"
  = if 60 <? 1700000061 - 1700000000 then None else Some 0%nat.
Proof.
  assert (Z.of_nat (length (minted demo_history_leaked)) < INT64_MAX) as Hlen
    by (simpl; unfold INT64_MAX; lia).
  assert (LRequest 1700000000 demo_post
            (Unavailable (http_Error cors_writer "脚本执行器未初始化"
                            StatusInternalServerError) "req_1700000000_1")
            ∈ demo_history_leaked) as Hin by left.
  assert (step demo_leaked (LTick 1700000061 1) demo_swept) as Hstep.
  { apply step_tick; [reflexivity| |reflexivity].
    unfold clock, INT64_MAX. lia. }
  split; [apply demo_run_leaked|]. split; [exact Hlen|]. split; [exact Hin|].
  split; [reflexivity|]. split; [exact I|]. split; [exact Hstep|].
  apply (leaked_id_waits_for_the_sweeper demo_history_leaked demo_leaked
           1700000000 demo_post _ "req_1700000000_1" 0%nat
           (LTick 1700000061 1) demo_swept
           demo_run_leaked Hlen Hin eq_refl I Hstep).
Defined.

End Sweeper.
